(** * Enterprise-Zapp: signal evaluation, risk scoring and CA coverage

    A shallow embedding of [src/analyzer.py] and [src/ca_analyzer.py],
    with the parts of [src/reporter.py] and [src/cli.py] that summarise
    the analysis results.

    The analyser reads JSON-shaped Python dictionaries with [dict.get]
    and defaults; a wrong shape makes a Python operation raise.  Values
    are therefore modelled as a small JSON value type [pyval], and every
    Python operation that can raise returns in the exception monad [Res].

    Timestamps are instants in microseconds since the epoch (UTC), as [Z].
    [datetime.fromisoformat(...).astimezone(timezone.utc)] is a library
    call: it is a parameter [fromisoformat_utc] of the analyser, reporting
    a parsed instant, a [ValueError], or an [OverflowError] raised while
    converting to UTC.  [_utcnow()] is the parameter [utcnow]: the instant
    the clock reads during one evaluation. *)

From Stdlib Require Import ZArith List String Ascii Bool Lia Sorting.Sorted Sorting.Permutation.
Import ListNotations.
Open Scope string_scope.
Open Scope Z_scope.

(** ** Python values and the exception monad *)

Module Py.

Set Warnings "-register-all".

Inductive pyval : Type :=
| PNone
| PBool (b : bool)
| PInt (z : Z)
| PStr (s : string)
| PList (l : list pyval)
| PDict (kvs : list (string * pyval)).

Inductive exn : Type := AttributeError | TypeError | OverflowError.

Inductive Res (A : Type) : Type :=
| Ok (a : A)
| Exc (e : exn).
Arguments Ok {A} a.
Arguments Exc {A} e.

Definition bind {A B} (m : Res A) (k : A -> Res B) : Res B :=
  match m with
  | Ok a => k a
  | Exc e => Exc e
  end.

Declare Scope res_scope.
Notation "x <- m ;; k" := (bind m (fun x => k))
  (at level 61, m at next level, right associativity) : res_scope.
Open Scope res_scope.

(** Python truthiness ([bool(v)]). *)
Definition truthy (v : pyval) : bool :=
  match v with
  | PNone => false
  | PBool b => b
  | PInt z => negb (Z.eqb z 0)
  | PStr s => negb (String.eqb s "")
  | PList l => match l with [] => false | _ => true end
  | PDict kvs => match kvs with [] => false | _ => true end
  end.

Fixpoint assoc_lookup (kvs : list (string * pyval)) (k : string) : option pyval :=
  match kvs with
  | [] => None
  | (k', v) :: rest => if String.eqb k k' then Some v else assoc_lookup rest k
  end.

(** [d.get(k, default)]: only dictionaries have [get]. *)
Definition py_get (d : pyval) (k : string) (default : pyval) : Res pyval :=
  match d with
  | PDict kvs =>
      match assoc_lookup kvs k with
      | Some v => Ok v
      | None => Ok default
      end
  | _ => Exc AttributeError
  end.

Fixpoint string_chars (s : string) : list pyval :=
  match s with
  | EmptyString => []
  | String c rest => PStr (String c EmptyString) :: string_chars rest
  end.

(** [len(v)]. *)
Definition py_len (v : pyval) : Res Z :=
  match v with
  | PStr s => Ok (Z.of_nat (String.length s))
  | PList l => Ok (Z.of_nat (List.length l))
  | PDict kvs => Ok (Z.of_nat (List.length kvs))
  | _ => Exc TypeError
  end.

(** [for x in v]: strings yield characters, dictionaries their keys. *)
Definition py_iter (v : pyval) : Res (list pyval) :=
  match v with
  | PStr s => Ok (string_chars s)
  | PList l => Ok l
  | PDict kvs => Ok (map (fun kv => PStr (fst kv)) kvs)
  | _ => Exc TypeError
  end.

Definition str_mem (s : string) (set : list string) : bool :=
  existsb (String.eqb s) set.

(** [v in S] for a set of strings: hashing a list or dict raises. *)
Definition py_in_strset (v : pyval) (set : list string) : Res bool :=
  match v with
  | PStr s => Ok (str_mem s set)
  | PList _ | PDict _ => Exc TypeError
  | _ => Ok false
  end.

(** [v == "s"]: only a string equal to [s]. *)
Definition py_eq_str (v : pyval) (s : string) : bool :=
  match v with
  | PStr t => String.eqb t s
  | _ => false
  end.

(** The case mapping of [str.lower()] on ASCII text.  The analyzers take
    [str.lower()] itself as a parameter [str_lower] (it maps all of
    Unicode); [lower] is the instance used to run them on ASCII inputs. *)
Definition ascii_lower (c : ascii) : ascii :=
  let n := nat_of_ascii c in
  if (Nat.leb 65 n && Nat.leb n 90)%bool then ascii_of_nat (n + 32)%nat else c.

Fixpoint lower (s : string) : string :=
  match s with
  | EmptyString => EmptyString
  | String c rest => String (ascii_lower c) (lower rest)
  end.

(** [v.lower()], with [str_lower] the case mapping of [str.lower()]. *)
Definition py_lower (str_lower : string -> string) (v : pyval) : Res string :=
  match v with
  | PStr s => Ok (str_lower s)
  | _ => Exc AttributeError
  end.

Definition py_startswith (v : pyval) (p : string) : Res bool :=
  match v with
  | PStr s => Ok (String.prefix p s)
  | _ => Exc AttributeError
  end.

Fixpoint has_char (c : ascii) (s : string) : bool :=
  match s with
  | EmptyString => false
  | String c' rest => (Ascii.eqb c c' || has_char c rest)%bool
  end.

(** [s.replace(old, new)] for a one-character [old]. *)
Fixpoint replace_char (c : ascii) (by_ : string) (s : string) : string :=
  match s with
  | EmptyString => EmptyString
  | String c' rest =>
      if Ascii.eqb c c' then by_ ++ replace_char c by_ rest
      else String c' (replace_char c by_ rest)
  end.

(** Whitespace of [str.split()]: strings are UTF-8 byte strings, and
    [str.split()] separates at the characters U+0009..U+000D,
    U+001C..U+001F, U+0020, U+0085, U+00A0, U+1680, U+2000..U+200A,
    U+2028, U+2029, U+202F, U+205F and U+3000.  [is_space] tests a
    one-byte character, [is_space2] and [is_space3] the UTF-8 encodings of
    the two- and three-byte ones. *)
Definition is_space (c : ascii) : bool :=
  let n := nat_of_ascii c in
  (Nat.eqb n 32 || (Nat.leb 9 n && Nat.leb n 13) || (Nat.leb 28 n && Nat.leb n 31))%bool.

Definition is_space2 (c1 c2 : ascii) : bool :=
  (Nat.eqb (nat_of_ascii c1) 194 &&
   (Nat.eqb (nat_of_ascii c2) 133 || Nat.eqb (nat_of_ascii c2) 160))%bool.

Definition is_space3 (c1 c2 c3 : ascii) : bool :=
  let n1 := nat_of_ascii c1 in
  let n2 := nat_of_ascii c2 in
  let n3 := nat_of_ascii c3 in
  ((Nat.eqb n1 225 && Nat.eqb n2 154 && Nat.eqb n3 128)
   || (Nat.eqb n1 226 && Nat.eqb n2 128 &&
       ((Nat.leb 128 n3 && Nat.leb n3 138) || Nat.eqb n3 168 || Nat.eqb n3 169
        || Nat.eqb n3 175))
   || (Nat.eqb n1 226 && Nat.eqb n2 129 && Nat.eqb n3 159)
   || (Nat.eqb n1 227 && Nat.eqb n2 128 && Nat.eqb n3 128))%bool.

(** Ends the current word, if any, in front of the remaining words. *)
Definition flush_word (cur : string) (tl : list string) : list string :=
  match cur with EmptyString => tl | _ => cur :: tl end.

(** The scan of [str.split()]: at each position a whitespace character
    (of one, two or three bytes) ends the current word; any other byte is
    appended to it.  A multi-byte whitespace encoding starts with a lead
    byte, so in UTF-8 text it is never found inside another character. *)
Fixpoint split_ws_aux (s : string) (cur : string) : list string :=
  match s with
  | EmptyString => flush_word cur []
  | String c1 rest1 =>
      if is_space c1 then flush_word cur (split_ws_aux rest1 EmptyString)
      else
        match rest1 with
        | EmptyString => split_ws_aux rest1 (cur ++ String c1 EmptyString)
        | String c2 rest2 =>
            if is_space2 c1 c2 then flush_word cur (split_ws_aux rest2 EmptyString)
            else
              match rest2 with
              | EmptyString => split_ws_aux rest1 (cur ++ String c1 EmptyString)
              | String c3 rest3 =>
                  if is_space3 c1 c2 c3 then flush_word cur (split_ws_aux rest3 EmptyString)
                  else split_ws_aux rest1 (cur ++ String c1 EmptyString)
              end
        end
  end.

Definition split_ws (s : string) : list string := split_ws_aux s EmptyString.

(** [v.split()]. *)
Definition py_split (v : pyval) : Res (list string) :=
  match v with
  | PStr s => Ok (split_ws s)
  | _ => Exc AttributeError
  end.

(** [any(f(x) for x in l)], short-circuiting at the first true. *)
Fixpoint any_res {A} (f : A -> Res bool) (l : list A) : Res bool :=
  match l with
  | [] => Ok false
  | x :: rest => b <- f x;; if b then Ok true else any_res f rest
  end.

Fixpoint map_res {A B} (f : A -> Res B) (l : list A) : Res (list B) :=
  match l with
  | [] => Ok []
  | x :: rest => y <- f x;; ys <- map_res f rest;; Ok (y :: ys)
  end.

End Py.

(** ** [src/analyzer.py] *)

Module Analyzer.
Import Py.

Definition DEFAULT_STALE_DAYS : Z := 90.
Definition NEAR_EXPIRY_DAYS : Z := 30.
Definition NEAR_EXPIRY_WARN_DAYS : Z := 90.

(** Microseconds in one day: [timedelta.days] is the floor of a
    difference in days. *)
Definition DAY_US : Z := 86400000000.

Definition MICROSOFT_TENANT_IDS : list string :=
  [ "f8cdef31-a31e-4b4a-93e4-5f571e91255a";
    "47df5bb7-e6bc-4256-afb0-dd8c8e3c1ce8";
    "cdc5aeea-15c5-4db6-b079-fcadd2505dc2";
    "72f988bf-86f1-41af-91ab-2d7cd011db47" ].

Definition HIGH_PRIVILEGE_ROLE_IDS : list string :=
  [ "9e3f62cf-ca93-4989-b6ce-bf83c28f9fe8";
    "62a82d76-70ea-41e2-9197-370581804d09";
    "1bfefb4e-e0b5-418b-a88f-73c46d2cc8e9";
    "9492366f-7969-46a4-8d15-ed1a20078fff";
    "741f803b-c850-494e-b5df-cde7c675a1ca";
    "e1fe6dd8-ba31-4d61-89e7-88639da4683d";
    "df021288-bdef-4463-88db-98f22de89214";
    "19dbc75e-c2e2-444c-a770-ec69d8559fc7";
    "06b708a9-e830-4db3-a914-8e69da51d44f";
    "50483e42-d915-4231-9212-7c7c36c48b57";
    "c79f8feb-a9db-4090-85f9-90d820caa0eb" ].

Definition HIGH_PRIVILEGE_DELEGATED_SCOPES : list string :=
  [ "Directory.ReadWrite.All"; "User.ReadWrite.All"; "Mail.ReadWrite";
    "Mail.ReadWriteShared"; "Files.ReadWrite.All"; "Sites.FullControl.All";
    "RoleManagement.ReadWrite.Directory"; "Group.ReadWrite.All";
    "Application.ReadWrite.All" ].

(** [Signal]; the human-readable [title] and [detail] strings are left
    out, the computations they perform that can raise ([len]) are kept
    in the steps below. *)
Record Signal : Type := mkSignal {
  key : string;
  severity : string;
  score_contribution : Z
}.

Record AppResult : Type := mkAppResult {
  sp_id : pyval;
  app_id : pyval;
  display_name : pyval;
  account_enabled : pyval;
  sp_type : pyval;
  created_datetime : pyval;
  last_sign_in : pyval;
  days_since_sign_in : option Z;
  owner_count : Z;
  assignment_count : Z;
  has_expired_secret : bool;
  has_expired_cert : bool;
  has_near_expiry_secret : bool;
  has_near_expiry_cert : bool;
  has_high_privilege : bool;
  signals : list Signal;
  risk_score : Z;
  risk_band : string;
  primary_recommendation : string;
  tags : pyval;
  is_microsoft_first_party : bool;
  is_tool_artifact : bool;
  disabled_owner_count : Z;
  description : pyval;
  notes : pyval;
  has_expiry_warning_secret : bool;
  has_expiry_warning_cert : bool;
  has_no_reply_urls : bool;
  has_wildcard_redirect : bool;
  has_excessive_delegated : bool;
  has_implicit_grant : pyval;
  is_multi_tenant : bool;
  has_mixed_credentials : bool;
  owners : pyval;
  password_credentials : pyval;
  key_credentials : pyval;
  delegated_grants : pyval;
  app_permissions : pyval
}.

Definition _risk_band (score : Z) : string :=
  if 75 <=? score then "critical"
  else if 50 <=? score then "high"
  else if 25 <=? score then "medium"
  else if 0 <? score then "low"
  else "clean".

Definition recs : list (string * string) :=
  [ ("never_signed_in", "Review whether this app was ever needed. If not in use, disable then delete.");
    ("stale", "Verify with the app owner whether this is still in use. If unused, disable and plan for removal.");
    ("no_owners", "Assign at least two owners to this app to ensure accountability.");
    ("disabled_owner", "Update app ownership — current owners are disabled accounts.");
    ("no_assignments", "If this app requires user/group access, add assignments. Otherwise consider whether it is still needed.");
    ("disabled_sp", "If the app is intentionally decommissioned, delete the service principal to reduce attack surface.");
    ("expired_secret", "Rotate or remove expired client secrets immediately.");
    ("expired_cert", "Rotate or remove expired certificates immediately.");
    ("near_expiry_secret", "Rotate client secret before expiry to avoid service disruption.");
    ("near_expiry_cert", "Rotate certificate before expiry to avoid service disruption.");
    ("high_privilege_stale", "High-privilege app with no recent sign-in activity — investigate necessity and disable if unused.");
    ("long_lived_secret", "Replace long-lived secrets with shorter-lived credentials to reduce breach impact.");
    ("expiry_warning_secret", "Client secret expiring in 30-90 days — schedule rotation now to avoid last-minute disruption.");
    ("expiry_warning_cert", "Certificate expiring in 30-90 days — schedule rotation now to avoid last-minute disruption.");
    ("no_reply_urls", "This app has credentials but no redirect URIs configured. Verify it is an intentional service/daemon app. If not in use, consider removal.");
    ("wildcard_redirect_uri", "Remove wildcard or localhost redirect URIs — these enable token theft via open redirect attacks.");
    ("excessive_delegated_permissions", "Review and restrict delegated permissions. High-privilege delegated scopes grant broad access when users consent. Remove scopes not actively needed.");
    ("implicit_grant_enabled", "Disable implicit grant flows in the app registration's Authentication blade. Migrate to authorization code flow with PKCE.");
    ("multi_tenant_app", "Confirm this app must accept external tenant logins. If it only serves your organisation, restrict to 'Accounts in this organizational directory only' in the app registration manifest.");
    ("mixed_credential_types", "This app has both client secrets and certificates. Remove any credentials that are no longer needed — each live credential is an independent attack vector.");
    ("microsoft_first_party", "Microsoft first-party app — verify this service is still required and review any security signals flagged above.") ].

Fixpoint str_lookup (tbl : list (string * string)) (k : string) : option string :=
  match tbl with
  | [] => None
  | (k', v) :: rest => if String.eqb k k' then Some v else str_lookup rest k
  end.

Definition _recommendation_for_signal (k : string) (account_enabled : pyval) : string :=
  match str_lookup recs k with
  | Some v => v
  | None => "Review and remediate flagged issues."
  end.

Definition severity_order : list string := ["critical"; "high"; "medium"; "low"; "info"].

Fixpoint scan_severities (sevs : list string) (active : list Signal)
    (account_enabled : pyval) : string :=
  match sevs with
  | [] => "Review flagged signals and remediate as appropriate."
  | sev :: rest =>
      match find (fun s => String.eqb (severity s) sev) active with
      | Some sg => _recommendation_for_signal (key sg) account_enabled
      | None => scan_severities rest active account_enabled
      end
  end.

Definition _primary_recommendation (sigs : list Signal) (account_enabled : pyval) : string :=
  match sigs with
  | [] => "No issues detected. Periodic review recommended."
  | _ =>
      let is_microsoft := existsb (fun s => String.eqb (key s) "microsoft_first_party") sigs in
      let active_signals :=
        if is_microsoft
        then filter (fun s => negb (String.eqb (key s) "microsoft_first_party")) sigs
        else sigs in
      match active_signals with
      | [] => "Microsoft first-party app — verify this service is still required in your tenant."
      | _ => scan_severities severity_order active_signals account_enabled
      end
  end.

(** The signals as the code constructs them (key, severity, weight). *)
Definition sig_never_signed_in := mkSignal "never_signed_in" "high" 35.
Definition sig_stale := mkSignal "stale" "high" 30.
Definition sig_no_owners := mkSignal "no_owners" "high" 20.
Definition sig_disabled_owner := mkSignal "disabled_owner" "high" 15.
Definition sig_no_assignments := mkSignal "no_assignments" "medium" 10.
Definition sig_disabled_sp := mkSignal "disabled_sp" "medium" 10.
Definition sig_expired_secret := mkSignal "expired_secret" "critical" 25.
Definition sig_expired_cert := mkSignal "expired_cert" "critical" 25.
Definition sig_near_expiry_secret := mkSignal "near_expiry_secret" "high" 15.
Definition sig_near_expiry_cert := mkSignal "near_expiry_cert" "high" 15.
Definition sig_expiry_warning_secret := mkSignal "expiry_warning_secret" "medium" 8.
Definition sig_expiry_warning_cert := mkSignal "expiry_warning_cert" "medium" 8.
Definition sig_long_lived_secret := mkSignal "long_lived_secret" "low" 15.
Definition sig_mixed_credential_types := mkSignal "mixed_credential_types" "low" 5.
Definition sig_no_reply_urls := mkSignal "no_reply_urls" "medium" 10.
Definition sig_wildcard_redirect_uri := mkSignal "wildcard_redirect_uri" "high" 20.
Definition sig_high_privilege_stale := mkSignal "high_privilege_stale" "critical" 25.
Definition sig_excessive_delegated_stale := mkSignal "excessive_delegated_permissions" "critical" 25.
Definition sig_excessive_delegated := mkSignal "excessive_delegated_permissions" "high" 20.
Definition sig_implicit_grant_enabled := mkSignal "implicit_grant_enabled" "medium" 10.
Definition sig_multi_tenant_privileged := mkSignal "multi_tenant_app" "high" 15.
Definition sig_multi_tenant := mkSignal "multi_tenant_app" "medium" 10.
Definition sig_microsoft_first_party := mkSignal "microsoft_first_party" "info" 0.
Definition sig_tool_artifact := mkSignal "tool_artifact" "info" 0.

(** The running [(signals, score)] pair: [signals.append(s); score += w],
    where [w] is the weight written in [s]. *)
Definition acc : Type := (list Signal * Z)%type.

Definition emit (a : acc) (s : Signal) : acc :=
  ((fst a ++ [s])%list, snd a + score_contribution s).

Definition emit_if (b : bool) (s : Signal) (a : acc) : acc :=
  if b then emit a s else a.

Definition len_pos (v : pyval) : Res bool := n <- py_len v;; Ok (0 <? n).

(** The three flags [has_expired_*], [has_near_expiry_*] and
    [has_expiry_warning_*] updated by the credential loops. *)
Record tiers : Type := mkTiers {
  t_expired : bool;
  t_near : bool;
  t_warning : bool
}.

Definition no_tiers : tiers := mkTiers false false false.

Definition tier_update (days_left : option Z) (t : tiers) : tiers :=
  match days_left with
  | None => t
  | Some d =>
      if d <? 0 then mkTiers true (t_near t) (t_warning t)
      else if d <=? NEAR_EXPIRY_DAYS then mkTiers (t_expired t) true (t_warning t)
      else if d <=? NEAR_EXPIRY_WARN_DAYS then mkTiers (t_expired t) (t_near t) true
      else t
  end.

(** [url.startswith(("http://localhost", "https://localhost")) or "*" in url] *)
Definition wildcard_url (url : pyval) : Res bool :=
  match url with
  | PStr s =>
      Ok (String.prefix "http://localhost" s || String.prefix "https://localhost" s
          || has_char "*" s)%bool
  | _ => Exc AttributeError
  end.

Definition is_stale_signal (s : Signal) : bool :=
  str_mem (key s) ["stale"; "never_signed_in"].

Inductive iso_outcome : Type :=
| IsoOk (t : Z)
| IsoValueError
| IsoOverflow.

Section Analysis.

Variable fromisoformat_utc : string -> iso_outcome.
Variable utcnow : Z.
Variable str_lower : string -> string.

Definition _parse_dt (value : pyval) : Res (option Z) :=
  if negb (truthy value) then Ok None
  else match value with
       | PStr s =>
           match fromisoformat_utc (replace_char "Z" "+00:00" s) with
           | IsoOk t => Ok (Some t)
           | IsoValueError => Ok None
           | IsoOverflow => Exc OverflowError
           end
       | _ => Exc AttributeError
       end.

Definition _days_since (dt : option Z) : option Z :=
  match dt with
  | None => None
  | Some t => Some ((utcnow - t) / DAY_US)
  end.

Definition _days_until (dt : option Z) : option Z :=
  match dt with
  | None => None
  | Some t => Some ((t - utcnow) / DAY_US)
  end.

(** [sign_in.get(sub, {}).get("lastSignInDateTime")] *)
Definition sub_sign_in (sign_in : pyval) (sub : string) : Res pyval :=
  blk <- py_get sign_in sub (PDict []);; py_get blk "lastSignInDateTime" PNone.

(** The three sub-sources joined by Python's short-circuiting [or]. *)
Definition last_sign_in_raw_of (sign_in : pyval) : Res pyval :=
  r1 <- sub_sign_in sign_in "lastSignInActivity";;
  if truthy r1 then Ok r1 else
  r2 <- sub_sign_in sign_in "lastDelegatedSignInActivity";;
  if truthy r2 then Ok r2 else
  sub_sign_in sign_in "lastApplicationSignInActivity".

Definition step_sign_in (is_fp : bool) (last_sign_in_dt : option Z) (sign_in : pyval)
    (days_since : option Z) (stale_days : Z) (a : acc) : acc :=
  if negb is_fp then
    if (match last_sign_in_dt with None => true | Some _ => false end && truthy sign_in)%bool
    then emit a sig_never_signed_in
    else match days_since with
         | Some d => emit_if (stale_days <? d) sig_stale a
         | None => a
         end
  else a.

Definition step_owners (is_fp : bool) (owners disabled_owner_ids : pyval) (a : acc) : Res acc :=
  if negb is_fp then
    n <- py_len owners;;
    if n =? 0 then Ok (emit a sig_no_owners)
    else if truthy disabled_owner_ids then
      _ <- py_len disabled_owner_ids;; _ <- py_len owners;;
      Ok (emit a sig_disabled_owner)
    else Ok a
  else Ok a.

Definition step_assignments (is_fp : bool) (assignments account_enabled sp_type : pyval)
    (a : acc) : Res acc :=
  n <- py_len assignments;;
  if n =? 0 then
    if truthy account_enabled then
      exempt <- py_in_strset sp_type ["ManagedIdentity"; "SocialIdp"];;
      Ok (emit_if (negb exempt && negb is_fp)%bool sig_no_assignments a)
    else Ok a
  else Ok a.

Fixpoint cred_tiers (creds : list pyval) (t : tiers) : Res tiers :=
  match creds with
  | [] => Ok t
  | cred :: rest =>
      e <- py_get cred "endDateTime" PNone;;
      end_dt <- _parse_dt e;;
      cred_tiers rest (tier_update (_days_until end_dt) t)
  end.

Definition step_expiry (ex_s near_s warn_s ex_c near_c warn_c : bool) (a : acc) : acc :=
  let a := emit_if ex_s sig_expired_secret a in
  let a := emit_if ex_c sig_expired_cert a in
  let a := emit_if (near_s && negb ex_s)%bool sig_near_expiry_secret a in
  let a := emit_if (near_c && negb ex_c)%bool sig_near_expiry_cert a in
  let a := emit_if (warn_s && negb ex_s && negb near_s)%bool sig_expiry_warning_secret a in
  emit_if (warn_c && negb ex_c && negb near_c)%bool sig_expiry_warning_cert a.

(** The [long_lived] comprehension with its walrus conditions. *)
Fixpoint long_lived_of (creds : list pyval) : Res (list pyval) :=
  match creds with
  | [] => Ok []
  | c :: rest =>
      e <- py_get c "endDateTime" PNone;;
      end_dt <- _parse_dt e;;
      keep <- match end_dt with
              | None => Ok false
              | Some ed =>
                  s <- py_get c "startDateTime" PNone;;
                  start_dt <- _parse_dt s;;
                  match start_dt with
                  | None => Ok false
                  | Some sd => Ok (365 <? (ed - sd) / DAY_US)
                  end
              end;;
      tl <- long_lived_of rest;;
      Ok (if keep then c :: tl else tl)
  end.

Fixpoint matched_delegated_scopes (grants : list pyval) : Res (list string) :=
  match grants with
  | [] => Ok []
  | grant :: rest =>
      sc <- py_get grant "scope" (PStr "");;
      toks <- py_split (if truthy sc then sc else PStr "");;
      ms <- matched_delegated_scopes rest;;
      Ok (filter (fun t => str_mem t HIGH_PRIVILEGE_DELEGATED_SCOPES) toks ++ ms)%list
  end.

Definition step_delegated (has_excessive : bool) (stale_signal : bool) (a : acc) : acc :=
  if has_excessive then
    if stale_signal then emit a sig_excessive_delegated_stale
    else emit a sig_excessive_delegated
  else a.

Definition step_multi_tenant (is_mt is_fp privileged : bool) (a : acc) : acc :=
  if (is_mt && negb is_fp)%bool then
    if privileged then emit a sig_multi_tenant_privileged
    else emit a sig_multi_tenant
  else a.

Definition analyze_app (sp : pyval) (stale_days : Z) : Res AppResult :=
  sp_id_v <- py_get sp "id" (PStr "");;
  app_id_v <- py_get sp "appId" (PStr "");;
  display_name_v <- py_get sp "displayName" (PStr "Unknown");;
  account_enabled_v <- py_get sp "accountEnabled" (PBool true);;
  sp_type_v <- py_get sp "servicePrincipalType" (PStr "");;
  created_raw <- py_get sp "createdDateTime" PNone;;
  created_dt <- _parse_dt created_raw;;
  org <- py_get sp "appOwnerOrganizationId" PNone;;
  is_fp <- py_in_strset org MICROSOFT_TENANT_IDS;;
  is_tool <- py_startswith display_name_v "Enterprise-Zapp-Scan-";;
  owners_v <- py_get sp "_owners" (PList []);;
  assignments_v <- py_get sp "_appPermissions" (PList []);;
  delegated_v <- py_get sp "_delegatedGrants" (PList []);;
  app_permissions_v <- py_get sp "_assignments" (PList []);;
  disabled_owner_ids <- py_get sp "_disabledOwnerIds" (PList []);;
  sign_in <- py_get sp "_signInActivity" (PDict []);;
  password_creds <- py_get sp "passwordCredentials" (PList []);;
  key_creds <- py_get sp "keyCredentials" (PList []);;
  (* last sign-in / staleness *)
  last_raw <- last_sign_in_raw_of sign_in;;
  last_dt <- _parse_dt last_raw;;
  let days_since := _days_since last_dt in
  let a1 := step_sign_in is_fp last_dt sign_in days_since stale_days ([], 0) in
  (* owners, assignments, disabled SP *)
  a2 <- step_owners is_fp owners_v disabled_owner_ids a1;;
  a3 <- step_assignments is_fp assignments_v account_enabled_v sp_type_v a2;;
  let a4 := emit_if (negb (truthy account_enabled_v)) sig_disabled_sp a3 in
  (* credentials *)
  pw_list <- py_iter password_creds;;
  t_s <- cred_tiers pw_list no_tiers;;
  key_list <- py_iter key_creds;;
  t_c <- cred_tiers key_list no_tiers;;
  let ex_s := t_expired t_s in
  let near_s := t_near t_s in
  let warn_s := t_warning t_s in
  let ex_c := t_expired t_c in
  let near_c := t_near t_c in
  let warn_c := t_warning t_c in
  let a5 := step_expiry ex_s near_s warn_s ex_c near_c warn_c a4 in
  pw_list2 <- py_iter password_creds;;
  long_lived <- long_lived_of pw_list2;;
  let a6 := emit_if (match long_lived with [] => false | _ => true end) sig_long_lived_secret a5 in
  has_mixed <- (b <- len_pos password_creds;; if b then len_pos key_creds else Ok false);;
  let a7 := emit_if has_mixed sig_mixed_credential_types a6 in
  (* redirect URIs *)
  reply_urls <- py_get sp "replyUrls" (PList []);;
  has_any_cred <- (b <- len_pos password_creds;; if b then Ok true else len_pos key_creds);;
  n_reply <- py_len reply_urls;;
  let has_no_reply := (Z.eqb n_reply 0 && has_any_cred)%bool in
  let a8 := emit_if has_no_reply sig_no_reply_urls a7 in
  urls <- py_iter reply_urls;;
  has_wild <- any_res wildcard_url urls;;
  let a9 := emit_if has_wild sig_wildcard_redirect_uri a8 in
  (* high privilege + stale *)
  perms <- py_iter app_permissions_v;;
  has_hp <- any_res (fun perm => v <- py_get perm "appRoleId" PNone;;
                                 py_in_strset v HIGH_PRIVILEGE_ROLE_IDS) perms;;
  let stale_signal := existsb is_stale_signal (fst a9) in
  let a10 := emit_if (has_hp && stale_signal)%bool sig_high_privilege_stale a9 in
  (* excessive delegated permissions *)
  grants <- py_iter delegated_v;;
  matched <- matched_delegated_scopes grants;;
  let has_exc := match matched with [] => false | _ => true end in
  let a11 := step_delegated has_exc stale_signal a10 in
  (* implicit grant *)
  id_tok <- py_get sp "oauth2AllowIdTokenIssuance" (PBool false);;
  implicit <- (if truthy id_tok then Ok id_tok
               else py_get sp "oauth2AllowImplicitFlow" (PBool false));;
  let a12 := emit_if (truthy implicit) sig_implicit_grant_enabled a11 in
  (* multi-tenant *)
  audience <- py_get sp "signInAudience" (PStr "");;
  let is_mt := (py_eq_str audience "AzureADMultipleOrgs"
                || py_eq_str audience "AzureADandPersonalMicrosoftAccount")%bool in
  let a13 := step_multi_tenant is_mt is_fp (has_hp || has_exc)%bool a12 in
  (* informational markers *)
  let a14 := emit_if is_fp sig_microsoft_first_party a13 in
  let a15 := emit_if is_tool sig_tool_artifact a14 in
  (* cap score at 100 *)
  let score := Z.min (snd a15) 100 in
  created_v <- py_get sp "createdDateTime" PNone;;
  oc <- py_len owners_v;;
  ac <- py_len assignments_v;;
  tags_v <- py_get sp "tags" (PList []);;
  doc <- py_len disabled_owner_ids;;
  desc <- py_get sp "description" PNone;;
  nts <- py_get sp "notes" PNone;;
  Ok (mkAppResult sp_id_v app_id_v display_name_v account_enabled_v sp_type_v
        created_v last_raw days_since oc ac ex_s ex_c near_s near_c has_hp
        (fst a15) score (_risk_band score)
        (_primary_recommendation (fst a15) account_enabled_v) tags_v
        is_fp is_tool doc
        (if truthy desc then desc else PNone) (if truthy nts then nts else PNone)
        warn_s warn_c has_no_reply has_wild has_exc implicit is_mt has_mixed
        owners_v password_creds key_creds delegated_v app_permissions_v).

(** [sorted(results, key=lambda r: (-r.risk_score, r.display_name.lower()))]:
    the keys are computed first, then a stable sort orders the tuples. *)
Definition sort_key (r : AppResult) : Res (Z * string) :=
  n <- py_lower str_lower (display_name r);; Ok (- risk_score r, n).

End Analysis.

(** Python tuple order on [(int, str)] keys; strings compare by code point. *)
Definition string_leb (s1 s2 : string) : bool :=
  match String.compare s1 s2 with Gt => false | _ => true end.

Definition key_leb (k1 k2 : Z * string) : bool :=
  (fst k1 <? fst k2) || ((fst k1 =? fst k2) && string_leb (snd k1) (snd k2)).

(** A stable sort: the output of a stable sort by a total preorder is
    unique, so insertion sort stands for Python's Timsort.  An element is
    inserted before the first element whose key is not smaller, so equal
    keys keep their input order. *)
Fixpoint insert_keyed (x : (Z * string) * AppResult) (l : list ((Z * string) * AppResult))
  : list ((Z * string) * AppResult) :=
  match l with
  | [] => [x]
  | y :: rest => if key_leb (fst x) (fst y) then x :: l else y :: insert_keyed x rest
  end.

Fixpoint sort_keyed (l : list ((Z * string) * AppResult)) : list ((Z * string) * AppResult) :=
  match l with
  | [] => []
  | x :: rest => insert_keyed x (sort_keyed rest)
  end.

Definition analyze_all (str_lower : string -> string)
    (fromisoformat_utc : string -> iso_outcome) (utcnow : Z)
    (raw_data : pyval) (stale_days : Z) : Res (list AppResult) :=
  apps <- py_get raw_data "apps" (PList []);;
  sps <- py_iter apps;;
  results <- map_res (fun sp => analyze_app fromisoformat_utc utcnow sp stale_days) sps;;
  keyed <- map_res (fun r => k <- sort_key str_lower r;; Ok (k, r)) results;;
  Ok (map snd (sort_keyed keyed)).

(** Reasoning vocabulary: the sum of the weights of a signal list, a
    signal list appended to the running pair, and the signals one step
    appends when started from the empty pair. *)
Definition sum_contributions (l : list Signal) : Z :=
  fold_right (fun s z => score_contribution s + z) 0 l.

Definition extend (a : acc) (n : list Signal) : acc :=
  ((fst a ++ n)%list, snd a + sum_contributions n).

Definition new_signals (f : acc -> acc) : list Signal := fst (f ([], 0)).

(** Every signal [analyze_app] constructs, and those it can still
    construct for a Microsoft first-party app. *)
Definition all_signals : list Signal :=
  [ sig_never_signed_in; sig_stale; sig_no_owners; sig_disabled_owner;
    sig_no_assignments; sig_disabled_sp; sig_expired_secret; sig_expired_cert;
    sig_near_expiry_secret; sig_near_expiry_cert; sig_expiry_warning_secret;
    sig_expiry_warning_cert; sig_long_lived_secret; sig_mixed_credential_types;
    sig_no_reply_urls; sig_wildcard_redirect_uri; sig_high_privilege_stale;
    sig_excessive_delegated_stale; sig_excessive_delegated;
    sig_implicit_grant_enabled; sig_multi_tenant_privileged; sig_multi_tenant;
    sig_microsoft_first_party; sig_tool_artifact ].

Definition fp_signals : list Signal :=
  [ sig_disabled_sp; sig_expired_secret; sig_expired_cert;
    sig_near_expiry_secret; sig_near_expiry_cert; sig_expiry_warning_secret;
    sig_expiry_warning_cert; sig_long_lived_secret; sig_mixed_credential_types;
    sig_no_reply_urls; sig_wildcard_redirect_uri; sig_high_privilege_stale;
    sig_excessive_delegated_stale; sig_excessive_delegated;
    sig_implicit_grant_enabled; sig_microsoft_first_party; sig_tool_artifact ].

Definition non_expiry_signals : list Signal :=
  [ sig_never_signed_in; sig_stale; sig_no_owners; sig_disabled_owner;
    sig_no_assignments; sig_disabled_sp; sig_long_lived_secret;
    sig_mixed_credential_types; sig_no_reply_urls; sig_wildcard_redirect_uri;
    sig_high_privilege_stale; sig_excessive_delegated_stale; sig_excessive_delegated;
    sig_implicit_grant_enabled; sig_multi_tenant_privileged; sig_multi_tenant;
    sig_microsoft_first_party; sig_tool_artifact ].

Definition non_sign_in_signals : list Signal :=
  [ sig_no_owners; sig_disabled_owner; sig_no_assignments; sig_disabled_sp;
    sig_expired_secret; sig_expired_cert; sig_near_expiry_secret; sig_near_expiry_cert;
    sig_expiry_warning_secret; sig_expiry_warning_cert; sig_long_lived_secret;
    sig_mixed_credential_types; sig_no_reply_urls; sig_wildcard_redirect_uri;
    sig_high_privilege_stale; sig_excessive_delegated_stale; sig_excessive_delegated;
    sig_implicit_grant_enabled; sig_multi_tenant_privileged; sig_multi_tenant;
    sig_microsoft_first_party; sig_tool_artifact ].

(** The keys of a signal list that belong to [ks], in order. *)
Definition keys_in (ks : list string) (sigs : list Signal) : list string :=
  filter (fun k => str_mem k ks) (map key sigs).

(** The sort key of a result whose display name is a string. *)
Definition name_key (str_lower : string -> string) (r : AppResult) : string :=
  match display_name r with PStr s => str_lower s | _ => EmptyString end.

(** The shapes of the fields of a service-principal record as the
    collector ([src/collector.py]) writes them.  A field may be absent;
    a present field has its collector shape.  Timestamp strings are
    arbitrary: they may fail to parse. *)
Definition str_or_null (v : pyval) : bool :=
  match v with PNone | PStr _ => true | _ => false end.

Definition is_str (v : pyval) : bool :=
  match v with PStr _ => true | _ => false end.

Definition scalar (v : pyval) : bool :=
  match v with PList _ | PDict _ => false | _ => true end.

Definition any_value (v : pyval) : bool := true.

Definition list_of (p : pyval -> bool) (v : pyval) : bool :=
  match v with PList l => forallb p l | _ => false end.

Definition field_ok (kvs : list (string * pyval)) (k : string) (p : pyval -> bool) : bool :=
  match assoc_lookup kvs k with None => true | Some v => p v end.

Definition dict_of (fields : list (string * (pyval -> bool))) (v : pyval) : bool :=
  match v with
  | PDict kvs => forallb (fun kp => field_ok kvs (fst kp) (snd kp)) fields
  | _ => false
  end.

Definition activity_ok : pyval -> bool := dict_of [("lastSignInDateTime", str_or_null)].

Definition sign_in_ok : pyval -> bool :=
  dict_of [ ("lastSignInActivity", activity_ok);
            ("lastDelegatedSignInActivity", activity_ok);
            ("lastApplicationSignInActivity", activity_ok) ].

Definition password_ok : pyval -> bool :=
  dict_of [("endDateTime", str_or_null); ("startDateTime", str_or_null)].

Definition key_ok : pyval -> bool := dict_of [("endDateTime", str_or_null)].

Definition grant_ok : pyval -> bool := dict_of [("scope", str_or_null)].

Definition permission_ok : pyval -> bool := dict_of [("appRoleId", scalar)].

Definition app_fields : list (string * (pyval -> bool)) :=
  [ ("displayName", is_str);
    ("servicePrincipalType", scalar);
    ("createdDateTime", str_or_null);
    ("appOwnerOrganizationId", scalar);
    ("_owners", list_of any_value);
    ("_appPermissions", list_of any_value);
    ("_delegatedGrants", list_of grant_ok);
    ("_assignments", list_of permission_ok);
    ("_disabledOwnerIds", list_of any_value);
    ("_signInActivity", sign_in_ok);
    ("passwordCredentials", list_of password_ok);
    ("keyCredentials", list_of key_ok);
    ("replyUrls", list_of is_str) ].

Definition app_ok : pyval -> bool := dict_of app_fields.





End Analyzer.

(** ** [src/ca_analyzer.py] *)

Module CaAnalyzer.
Import Py.

Record PolicySummary : Type := mkPolicySummary {
  policy_id : pyval;
  display_name : pyval;
  state : pyval;
  includes_all_apps : bool;
  included_app_ids : list string;
  excluded_app_ids : list string;
  created_datetime : pyval;
  modified_datetime : pyval
}.

Definition is_enforced (p : PolicySummary) : bool := py_eq_str (state p) "enabled".

(** [AppCoverage]; its [display_name] field is [coverage_display_name]
    here, as two records of one module cannot share a field name. *)
Record AppCoverage : Type := mkAppCoverage {
  app_id : string;
  coverage_display_name : pyval;
  is_covered : bool;
  policy_names : list pyval
}.

Section Lowering.

Variable str_lower : string -> string.

(** [[a.lower() for a in include_apps if a.lower() not in ("all", "none")]] *)
Fixpoint included_ids (include_apps : list pyval) : Res (list string) :=
  match include_apps with
  | [] => Ok []
  | a :: rest =>
      la <- py_lower str_lower a;;
      tl <- included_ids rest;;
      Ok (if (String.eqb la "all" || String.eqb la "none")%bool then tl else la :: tl)
  end.

Definition parse_policy (p : pyval) : Res PolicySummary :=
  conditions <- py_get p "conditions" (PDict []);;
  apps_cond <- py_get conditions "applications" (PDict []);;
  include_apps <- py_get apps_cond "includeApplications" (PList []);;
  exclude_apps <- py_get apps_cond "excludeApplications" (PList []);;
  inc1 <- py_iter include_apps;;
  includes_all <- any_res (fun a => la <- py_lower str_lower a;; Ok (String.eqb la "all")) inc1;;
  pid <- py_get p "id" (PStr "");;
  dn <- py_get p "displayName" (PStr "(unnamed)");;
  st <- py_get p "state" (PStr "disabled");;
  inc2 <- py_iter include_apps;;
  included <- included_ids inc2;;
  exc <- py_iter exclude_apps;;
  excluded <- map_res (py_lower str_lower) exc;;
  created <- py_get p "createdDateTime" PNone;;
  modified <- py_get p "modifiedDateTime" PNone;;
  Ok (mkPolicySummary pid dn st includes_all included excluded created modified).

Definition _parse_policies (ca_policies : pyval) : Res (list PolicySummary) :=
  ps <- py_iter ca_policies;; map_res parse_policy ps.

End Lowering.

(** The inner loop over the enforced policies for one app. *)
Fixpoint covering_of (app_id : string) (enforced : list PolicySummary) : list pyval :=
  match enforced with
  | [] => []
  | policy :: rest =>
      let included :=
        if includes_all_apps policy then true
        else str_mem app_id (included_app_ids policy) in
      if negb included then covering_of app_id rest
      else if str_mem app_id (excluded_app_ids policy) then covering_of app_id rest
      else display_name policy :: covering_of app_id rest
  end.

Section Coverage.

Variable str_lower : string -> string.

Definition app_coverage (enforced : list PolicySummary) (app : pyval) : Res AppCoverage :=
  aid <- py_get app "appId" (PStr "");;
  app_id_l <- py_lower str_lower aid;;
  dn <- py_get app "displayName" (PStr "(unnamed)");;
  let covering := covering_of app_id_l enforced in
  Ok (mkAppCoverage app_id_l dn (match covering with [] => false | _ => true end) covering).

Definition analyze_ca_coverage (ca_policies apps : pyval)
  : Res (list AppCoverage * list PolicySummary) :=
  policy_summaries <- _parse_policies str_lower ca_policies;;
  let enforced := filter is_enforced policy_summaries in
  app_list <- py_iter apps;;
  app_coverages <- map_res (app_coverage enforced) app_list;;
  Ok (app_coverages, policy_summaries).

End Coverage.

(** The condition under which one iteration of the inner loop of
    [analyze_ca_coverage] appends the policy's name. *)
Definition covers_b (app_id : string) (p : PolicySummary) : bool :=
  ((includes_all_apps p || str_mem app_id (included_app_ids p))
   && negb (str_mem app_id (excluded_app_ids p)))%bool.

End CaAnalyzer.

(** ** Reporting and the command line

    [band_counts] of [src/analyzer.py], the band filter and the exit
    code of [main] in [src/cli.py], [_top_recommendations] and
    [_csv_safe] of [src/reporter.py], and the two display properties
    [state_label] and [state_css] of [PolicySummary]. *)

Module CaState.
Import Py CaAnalyzer.

(** [{...}.get(key, default)] on a dictionary with string keys: an
    unhashable key (list, dict) raises TypeError; a non-string scalar
    never equals a string key. *)
Definition str_dict_get (tbl : list (string * string)) (k : pyval) : Res (option string) :=
  match k with
  | PList _ | PDict _ => Exc TypeError
  | PStr s => Ok (Analyzer.str_lookup tbl s)
  | _ => Ok None
  end.

Definition state_labels : list (string * string) :=
  [("enabled", "Enabled"); ("disabled", "Disabled");
   ("enabledForReportingButNotEnforced", "Report-only")].

Definition state_css_classes : list (string * string) :=
  [("enabled", "ca-state-enabled"); ("disabled", "ca-state-disabled");
   ("enabledForReportingButNotEnforced", "ca-state-report")].

Definition state_label (p : PolicySummary) : Res pyval :=
  o <- str_dict_get state_labels (state p);;
  Ok (match o with Some s => PStr s | None => state p end).

Definition state_css (p : PolicySummary) : Res string :=
  o <- str_dict_get state_css_classes (state p);;
  Ok (match o with Some s => s | None => "" end).

End CaState.

Module Report.
Import Py Analyzer.
Local Open Scope list_scope.

(** A Python [dict[str, int]] as an association list in insertion order. *)
Definition band_dict := list (string * Z).

Fixpoint dict_get (d : band_dict) (k : string) : option Z :=
  match d with
  | [] => None
  | (k', v) :: rest => if String.eqb k k' then Some v else dict_get rest k
  end.

(** [d[k] = v]: an existing key keeps its position, a new one is appended. *)
Fixpoint dict_set (d : band_dict) (k : string) (v : Z) : band_dict :=
  match d with
  | [] => [(k, v)]
  | (k', v') :: rest => if String.eqb k k' then (k', v) :: rest else (k', v') :: dict_set rest k v
  end.

Definition band_names : list string := ["critical"; "high"; "medium"; "low"; "clean"].

(** [band_counts] (analyzer.py). *)
Definition band_step (counts : band_dict) (r : AppResult) : band_dict :=
  dict_set counts (risk_band r)
    (match dict_get counts (risk_band r) with Some c => c | None => 0 end + 1).

Definition band_counts (results : list AppResult) : band_dict :=
  fold_left band_step results (map (fun b => (b, 0)) band_names).

(** The band filter of [main] (cli.py); [None] is the ValueError of
    [list.index]. *)
Definition band_order : list string := ["clean"; "low"; "medium"; "high"; "critical"].

Fixpoint list_index (l : list string) (x : string) : option nat :=
  match l with
  | [] => None
  | y :: rest => if String.eqb y x then Some O else option_map S (list_index rest x)
  end.

Fixpoint filter_min_idx (min_idx : nat) (results : list AppResult) : option (list AppResult) :=
  match results with
  | [] => Some []
  | r :: rest =>
      match list_index band_order (risk_band r) with
      | None => None
      | Some i =>
          match filter_min_idx min_idx rest with
          | None => None
          | Some tl => Some (if Nat.leb min_idx i then r :: tl else tl)
          end
      end
  end.

Definition filter_by_band (filter_band : string) (results : list AppResult)
  : option (list AppResult) :=
  if negb (String.eqb filter_band "all") then
    match list_index band_order filter_band with
    | None => None
    | Some min_idx => filter_min_idx min_idx results
    end
  else Some results.

(** The exit code chosen at the end of [main] from [full_bands];
    [None] is a KeyError. *)
Definition exit_code (full_bands : band_dict) : option Z :=
  match dict_get full_bands "critical" with
  | None => None
  | Some c =>
      if 0 <? c then Some 3 else
      match dict_get full_bands "high" with
      | None => None
      | Some h =>
          if 0 <? h then Some 2 else
          match dict_get full_bands "medium" with
          | None => None
          | Some m => if 0 <? m then Some 1 else Some 0
          end
      end
  end.

(** [str(n)] for an int. *)
Fixpoint digits_of (fuel : nat) (n : Z) (acc : string) : string :=
  match fuel with
  | O => acc
  | S f =>
      let acc' := String (ascii_of_nat (48 + Z.to_nat (n mod 10))) acc in
      if n <? 10 then acc' else digits_of f (n / 10) acc'
  end.

Definition str_of_Z (n : Z) : string :=
  if n <? 0 then String "-" (digits_of (S (Z.to_nat (Z.log2 (- n)))) (- n) "")
  else digits_of (S (Z.to_nat (Z.log2 n))) n "".

(** [sum(1 for r in results if p(r))] *)
Definition count_if (p : AppResult -> bool) (results : list AppResult) : Z :=
  Z.of_nat (List.length (filter p results)).

Definition hygiene_rec : string * string :=
  ("Maintain regular hygiene reviews",
   "Your tenant is in good shape. Schedule periodic scans to catch drift early.").

(** [_top_recommendations] (reporter.py); each item is the pair
    ([text], [sub]); [None] is a KeyError. *)
Definition _top_recommendations (results : list AppResult) : option (list (string * string)) :=
  let counts := band_counts results in
  match dict_get counts "critical", dict_get counts "high" with
  | Some crit, Some high =>
      let crit_high := crit + high in
      let recs1 :=
        if 0 <? crit_high then
          [(("Prioritise review of " ++ str_of_Z crit_high ++ " Critical/High risk apps")%string,
            (str_of_Z crit ++ " critical and " ++ str_of_Z high ++
             " high risk apps detected. Start with apps that are stale and hold high-privilege permissions.")%string)]
        else [] in
      let expired_cred_apps :=
        count_if (fun r => (has_expired_secret r || has_expired_cert r)%bool) results in
      let recs2 :=
        recs1 ++
        (if 0 <? expired_cred_apps then
           [(("Rotate or remove expired credentials on " ++ str_of_Z expired_cred_apps ++ " app(s)")%string,
             "Expired secrets and certificates should be removed immediately — they may indicate abandoned apps or missed rotation cycles.")]
         else []) in
      let orphaned :=
        count_if (fun r => (Z.eqb (owner_count r) 0 && negb (is_microsoft_first_party r))%bool)
          results in
      let recs3 :=
        recs2 ++
        (if 0 <? orphaned then
           [(("Assign owners to " ++ str_of_Z orphaned ++ " ownerless app(s)")%string,
             "Apps without owners lack accountability for rotation, decommission, and incident response.")]
         else []) in
      let stale :=
        count_if (fun r => existsb (fun s => (String.eqb (key s) "stale"
                                              || String.eqb (key s) "never_signed_in")%bool)
                             (signals r)) results in
      let recs4 :=
        if (0 <? stale) && (Z.of_nat (List.length recs3) <? 3) then
          recs3 ++
          [(("Decommission or verify " ++ str_of_Z stale ++ " stale or never-used app(s)")%string,
            "Each unused app represents unnecessary attack surface. Work with app owners to confirm necessity and disable/delete those no longer required.")]
        else recs3 in
      let recs5 := match recs4 with [] => [hygiene_rec] | _ => recs4 end in
      Some (firstn 3 recs5)
  | _, _ => None
  end.

(** [_csv_safe] (reporter.py) on a [str]. The characters it tests are
    ASCII, and the first byte of a non-ASCII character in UTF-8 is never
    ASCII, so testing the first byte is testing the first character. *)
Definition csv_trigger (c : ascii) : bool :=
  existsb (Ascii.eqb c) ["="%char; "+"%char; "-"%char; "@"%char; "009"%char; "013"%char].

Definition _csv_safe (value : string) : string :=
  match value with
  | EmptyString => value
  | String c _ => if csv_trigger c then String "'" value else value
  end.

End Report.

(** ** Reasoning about the model *)

Module Facts.
Import Py.
Local Open Scope list_scope.

(** Peel [x <- m;; k = Ok r] one bind at a time. *)
Ltac res_step H :=
  match type of H with
  | bind ?m _ = Ok _ =>
      let x := fresh "x" in
      let E := fresh "E" in
      case_eq m;
      [intros x E; rewrite E in H; cbn [bind] in H
      | let e := fresh "e" in intros e E; rewrite E in H; discriminate H]
  end.

Ltac res_inv H := repeat res_step H.

Lemma map_res_in {A B} (f : A -> Res B) l l' y :
  map_res f l = Ok l' -> In y l' -> exists x, In x l /\ f x = Ok y.
Proof.
  revert l'. induction l as [|x rest IH]; intros l' H Hy; cbn in H.
  - inversion H; subst. destruct Hy.
  - res_inv H. inversion H; subst. destruct Hy as [<- | Hy].
    + exists x. split; [left; reflexivity | assumption].
    + destruct (IH _ E0 Hy) as [x' [Hin Hf]]. exists x'. split; [right|]; assumption.
Qed.

Lemma map_res_length {A B} (f : A -> Res B) l l' :
  map_res f l = Ok l' -> List.length l' = List.length l.
Proof.
  revert l'. induction l as [|x rest IH]; intros l' H; cbn in H.
  - inversion H; reflexivity.
  - res_inv H. inversion H; subst. cbn. f_equal. apply IH. assumption.
Qed.

Lemma str_mem_In s l : str_mem s l = true <-> In s l.
Proof.
  unfold str_mem. rewrite existsb_exists. split.
  - intros [x [Hin Heq]]. apply String.eqb_eq in Heq. subst. assumption.
  - intros Hin. exists s. split; [assumption | apply String.eqb_refl].
Qed.

Lemma ascii_lower_idem c : ascii_lower (ascii_lower c) = ascii_lower c.
Proof.
  destruct c as [b0 b1 b2 b3 b4 b5 b6 b7].
  destruct b0, b1, b2, b3, b4, b5, b6, b7; vm_compute; reflexivity.
Qed.

Lemma lower_idem s : lower (lower s) = lower s.
Proof.
  induction s as [|c s IH]; cbn; [reflexivity|]. rewrite ascii_lower_idem, IH. reflexivity.
Qed.

(** The lemmas on lower-cased ids hold for any idempotent case mapping;
    [str.lower()] is one (lowering a lowered string changes nothing), and
    so is [lower]. *)
Section Lowercase.

Variable str_lower : string -> string.
Hypothesis str_lower_idem : forall s, str_lower (str_lower s) = str_lower s.

Lemma py_lower_lowercase v s : py_lower str_lower v = Ok s -> str_lower s = s.
Proof.
  destruct v; cbn; intros H; inversion H; subst. apply str_lower_idem.
Qed.

Lemma map_lower_lowercase l r :
  map_res (py_lower str_lower) l = Ok r -> Forall (fun x => str_lower x = x) r.
Proof.
  intros H. apply Forall_forall. intros y Hy.
  destruct (map_res_in _ _ _ _ H Hy) as [x [_ Hx]]. eapply py_lower_lowercase; eassumption.
Qed.

Lemma included_ids_lowercase l r :
  CaAnalyzer.included_ids str_lower l = Ok r -> Forall (fun x => str_lower x = x) r.
Proof.
  revert r. induction l as [|a rest IH]; intros r H; cbn in H.
  - inversion H; constructor.
  - res_inv H. inversion H; subst.
    destruct (String.eqb x "all" || String.eqb x "none")%bool.
    + apply IH; assumption.
    + constructor; [eapply py_lower_lowercase; eassumption | apply IH; assumption].
Qed.

Lemma parse_policy_lowercase p ps :
  CaAnalyzer.parse_policy str_lower p = Ok ps ->
  Forall (fun x => str_lower x = x)
    (CaAnalyzer.included_app_ids ps ++ CaAnalyzer.excluded_app_ids ps).
Proof.
  unfold CaAnalyzer.parse_policy. intros H. res_inv H. inversion H; subst. cbn.
  apply Forall_app. split.
  - eapply included_ids_lowercase; eassumption.
  - eapply map_lower_lowercase; eassumption.
Qed.

End Lowercase.

Lemma covers_b_iff app_id p :
  CaAnalyzer.covers_b app_id p = true <->
  (CaAnalyzer.includes_all_apps p = true \/ In app_id (CaAnalyzer.included_app_ids p)) /\
  ~ In app_id (CaAnalyzer.excluded_app_ids p).
Proof.
  unfold CaAnalyzer.covers_b. rewrite andb_true_iff, orb_true_iff, negb_true_iff, str_mem_In.
  split; intros [H1 H2]; split; try assumption.
  - intros Hin. apply str_mem_In in Hin. congruence.
  - destruct (str_mem app_id (CaAnalyzer.excluded_app_ids p)) eqn:E; [|reflexivity].
    apply str_mem_In in E. contradiction.
Qed.

Lemma covering_of_cons app_id p rest :
  CaAnalyzer.covering_of app_id (p :: rest) =
  if CaAnalyzer.covers_b app_id p then CaAnalyzer.display_name p :: CaAnalyzer.covering_of app_id rest
  else CaAnalyzer.covering_of app_id rest.
Proof.
  unfold CaAnalyzer.covers_b. cbn.
  destruct (CaAnalyzer.includes_all_apps p), (str_mem app_id (CaAnalyzer.included_app_ids p)),
    (str_mem app_id (CaAnalyzer.excluded_app_ids p)); reflexivity.
Qed.

Lemma covering_of_nonempty_iff app_id ps :
  CaAnalyzer.covering_of app_id ps <> [] <->
  exists p, In p ps /\ CaAnalyzer.covers_b app_id p = true.
Proof.
  induction ps as [|p rest IH].
  - cbn. split; [intros H; exfalso; apply H; reflexivity | intros [p [[] _]]].
  - rewrite covering_of_cons. destruct (CaAnalyzer.covers_b app_id p) eqn:Hc.
    + split; [intros _; exists p; split; [left; reflexivity | assumption] | intros _; discriminate].
    + rewrite IH. split; intros [q [Hq Hcov]].
      * exists q. split; [right|]; assumption.
      * destruct Hq as [<- | Hq]; [congruence | exists q; split; assumption].
Qed.

(** *** Appending signals *)

Import Analyzer.

Lemma sum_contributions_app l1 l2 :
  sum_contributions (l1 ++ l2) = sum_contributions l1 + sum_contributions l2.
Proof.
  unfold sum_contributions. induction l1 as [|s l1 IH]; cbn; [reflexivity|]. rewrite IH. ring.
Qed.

Lemma extend_extend a n1 n2 : extend (extend a n1) n2 = extend a (n1 ++ n2).
Proof.
  unfold extend. cbn. rewrite app_assoc, sum_contributions_app. f_equal. ring.
Qed.

Lemma extend_nil a : extend a [] = a.
Proof. destruct a as [l z]. unfold extend. cbn. rewrite app_nil_r. f_equal. ring. Qed.

Lemma emit_extend a s : emit a s = extend a [s].
Proof. unfold emit, extend. cbn. f_equal. ring. Qed.

Lemma emit_if_extend b s a : emit_if b s a = extend a (if b then [s] else []).
Proof. destruct b; cbn; [apply emit_extend | symmetry; apply extend_nil]. Qed.

Lemma new_signals_of f n : (forall a, f a = extend a n) -> new_signals f = n.
Proof. intros H. unfold new_signals. rewrite H. reflexivity. Qed.

(** A step that appends the same list whatever the running pair. *)
Lemma pure_step_extend f :
  (exists n, forall a, f a = extend a n) -> forall a, f a = extend a (new_signals f).
Proof. intros [n H] a. rewrite (new_signals_of f n H). apply H. Qed.

Lemma step_sign_in_extend fp dt si ds sd a :
  step_sign_in fp dt si ds sd a = extend a (new_signals (step_sign_in fp dt si ds sd)).
Proof.
  apply pure_step_extend.
  exists (if negb fp then
            if (match dt with None => true | Some _ => false end && truthy si)%bool
            then [sig_never_signed_in]
            else match ds with
                 | Some d => if sd <? d then [sig_stale] else []
                 | None => []
                 end
          else []).
  intros a0. unfold step_sign_in.
  destruct (negb fp); [|symmetry; apply extend_nil].
  destruct (_ && _)%bool; [apply emit_extend|].
  destruct ds; [apply emit_if_extend | symmetry; apply extend_nil].
Qed.

Lemma emit_if_step_extend b s a :
  emit_if b s a = extend a (new_signals (emit_if b s)).
Proof. apply pure_step_extend. exists (if b then [s] else []). apply emit_if_extend. Qed.

Lemma step_expiry_extend b1 b2 b3 b4 b5 b6 a :
  step_expiry b1 b2 b3 b4 b5 b6 a = extend a (new_signals (step_expiry b1 b2 b3 b4 b5 b6)).
Proof.
  apply pure_step_extend. eexists. intros a0. unfold step_expiry.
  rewrite !emit_if_extend, !extend_extend. reflexivity.
Qed.

Lemma step_delegated_extend b st a :
  step_delegated b st a = extend a (new_signals (step_delegated b st)).
Proof.
  apply pure_step_extend.
  exists (if b then if st then [sig_excessive_delegated_stale] else [sig_excessive_delegated] else []).
  intros a0. unfold step_delegated.
  destruct b; [destruct st; apply emit_extend | symmetry; apply extend_nil].
Qed.

Lemma step_multi_tenant_extend m fp pr a :
  step_multi_tenant m fp pr a = extend a (new_signals (step_multi_tenant m fp pr)).
Proof.
  apply pure_step_extend.
  exists (if (m && negb fp)%bool then if pr then [sig_multi_tenant_privileged] else [sig_multi_tenant] else []).
  intros a0. unfold step_multi_tenant.
  destruct (m && negb fp)%bool; [destruct pr; apply emit_extend | symmetry; apply extend_nil].
Qed.

Lemma step_owners_extend fp ow dis a a' :
  step_owners fp ow dis a = Ok a' ->
  exists n, a' = extend a n /\
    Forall (fun s => In s [sig_no_owners; sig_disabled_owner]) n /\ (fp = true -> n = []).
Proof.
  unfold step_owners. intros H. destruct fp; cbn [negb] in H.
  - inversion H; subst. exists []. rewrite extend_nil. repeat split; constructor.
  - res_inv H. destruct (x =? 0).
    + inversion H; subst. exists [sig_no_owners]. rewrite emit_extend.
      repeat split; [repeat constructor; cbn; tauto | discriminate].
    + destruct (truthy dis).
      * res_inv H. inversion H; subst. exists [sig_disabled_owner]. rewrite emit_extend.
        repeat split; [repeat constructor; cbn; tauto | discriminate].
      * inversion H; subst. exists []. rewrite extend_nil. repeat split; constructor.
Qed.

Lemma step_assignments_extend fp asg ae spt a a' :
  step_assignments fp asg ae spt a = Ok a' ->
  exists n, a' = extend a n /\
    Forall (fun s => s = sig_no_assignments) n /\ (fp = true -> n = []).
Proof.
  unfold step_assignments. intros H. res_inv H.
  destruct (x =? 0); [destruct (truthy ae)|].
  - res_inv H. inversion H; subst. rewrite emit_if_extend.
    eexists. split; [reflexivity|].
    destruct fp; rewrite ?andb_false_r, ?andb_true_r; cbn.
    + split; [constructor | reflexivity].
    + destruct (negb x0); (split; [repeat constructor | discriminate]).
  - inversion H; subst. exists []. rewrite extend_nil. repeat split; constructor.
  - inversion H; subst. exists []. rewrite extend_nil. repeat split; constructor.
Qed.

Lemma new_signals_emit_if b s : new_signals (emit_if b s) = if b then [s] else [].
Proof. destruct b; reflexivity. Qed.

Lemma new_signals_step_sign_in fp dt si ds sd :
  new_signals (step_sign_in fp dt si ds sd) =
  if negb fp then
    if (match dt with None => true | Some _ => false end && truthy si)%bool
    then [sig_never_signed_in]
    else match ds with
         | Some d => if sd <? d then [sig_stale] else []
         | None => []
         end
  else [].
Proof.
  unfold new_signals, step_sign_in.
  destruct fp, dt, (truthy si), ds; cbn; try destruct (sd <? _); reflexivity.
Qed.

Lemma new_signals_step_expiry b1 b2 b3 b4 b5 b6 :
  new_signals (step_expiry b1 b2 b3 b4 b5 b6) =
  (if b1 then [sig_expired_secret] else [])
  ++ (if b4 then [sig_expired_cert] else [])
  ++ (if (b2 && negb b1)%bool then [sig_near_expiry_secret] else [])
  ++ (if (b5 && negb b4)%bool then [sig_near_expiry_cert] else [])
  ++ (if (b3 && negb b1 && negb b2)%bool then [sig_expiry_warning_secret] else [])
  ++ (if (b6 && negb b4 && negb b5)%bool then [sig_expiry_warning_cert] else []).
Proof.
  apply new_signals_of. intros a. unfold step_expiry.
  rewrite !emit_if_extend, !extend_extend, <- ?app_assoc. reflexivity.
Qed.

Lemma new_signals_step_delegated b st :
  new_signals (step_delegated b st) =
  if b then if st then [sig_excessive_delegated_stale] else [sig_excessive_delegated] else [].
Proof. destruct b, st; reflexivity. Qed.

Lemma new_signals_step_multi_tenant m fp pr :
  new_signals (step_multi_tenant m fp pr) =
  if (m && negb fp)%bool then if pr then [sig_multi_tenant_privileged] else [sig_multi_tenant]
  else [].
Proof. destruct m, fp, pr; reflexivity. Qed.

(** *** The shape of a result of [analyze_app] *)

Lemma analyze_app_inv fi now sp sd r :
  analyze_app fi now sp sd = Ok r ->
  exists org fp dn tool sign_in last_raw last_dt pw pwl ts kc kcl tc n2 n3
         (b_ll b_mix b_nr b_w b_hp b_del b_st b_impl b_mt b_pr : bool),
    py_get sp "appOwnerOrganizationId" PNone = Ok org /\
    py_in_strset org MICROSOFT_TENANT_IDS = Ok fp /\
    py_get sp "displayName" (PStr "Unknown") = Ok dn /\
    py_startswith dn "Enterprise-Zapp-Scan-" = Ok tool /\
    py_get sp "_signInActivity" (PDict []) = Ok sign_in /\
    last_sign_in_raw_of sign_in = Ok last_raw /\
    _parse_dt fi last_raw = Ok last_dt /\
    py_get sp "passwordCredentials" (PList []) = Ok pw /\
    py_iter pw = Ok pwl /\ cred_tiers fi now pwl no_tiers = Ok ts /\
    py_get sp "keyCredentials" (PList []) = Ok kc /\
    py_iter kc = Ok kcl /\ cred_tiers fi now kcl no_tiers = Ok tc /\
    is_microsoft_first_party r = fp /\ is_tool_artifact r = tool /\
    last_sign_in r = last_raw /\ days_since_sign_in r = _days_since now last_dt /\
    signals r =
      new_signals (step_sign_in fp last_dt sign_in (_days_since now last_dt) sd)
      ++ n2 ++ n3
      ++ (if negb (truthy (account_enabled r)) then [sig_disabled_sp] else [])
      ++ new_signals (step_expiry (t_expired ts) (t_near ts) (t_warning ts)
                                  (t_expired tc) (t_near tc) (t_warning tc))
      ++ (if b_ll then [sig_long_lived_secret] else [])
      ++ (if b_mix then [sig_mixed_credential_types] else [])
      ++ (if b_nr then [sig_no_reply_urls] else [])
      ++ (if b_w then [sig_wildcard_redirect_uri] else [])
      ++ (if b_hp then [sig_high_privilege_stale] else [])
      ++ new_signals (step_delegated b_del b_st)
      ++ (if b_impl then [sig_implicit_grant_enabled] else [])
      ++ new_signals (step_multi_tenant b_mt fp b_pr)
      ++ (if fp then [sig_microsoft_first_party] else [])
      ++ (if tool then [sig_tool_artifact] else []) /\
    Forall (fun s => In s [sig_no_owners; sig_disabled_owner]) n2 /\ (fp = true -> n2 = []) /\
    Forall (fun s => s = sig_no_assignments) n3 /\ (fp = true -> n3 = []) /\
    risk_score r = Z.min (sum_contributions (signals r)) 100 /\
    risk_band r = _risk_band (risk_score r) /\
    primary_recommendation r = _primary_recommendation (signals r) (account_enabled r).
Proof.
  intros H. unfold analyze_app in H. res_inv H.
  destruct (step_owners_extend _ _ _ _ _ E19) as [n2 [-> [Hn2 Hfp2]]].
  destruct (step_assignments_extend _ _ _ _ _ _ E20) as [n3 [-> [Hn3 Hfp3]]].
  injection H as <-.
  cbn [signals risk_score risk_band primary_recommendation account_enabled
       is_microsoft_first_party is_tool_artifact last_sign_in days_since_sign_in].
  repeat rewrite emit_if_step_extend.
  rewrite ?step_multi_tenant_extend, ?step_delegated_extend, ?step_expiry_extend,
    ?step_sign_in_extend.
  rewrite ?new_signals_emit_if, ?extend_extend.
  exists x6, x7, x1, x8, x14, x17, x18, x15, x21, x22, x16, x23, x24, n2, n3.
  do 10 eexists.
  repeat split; try eassumption; reflexivity.
Qed.

(** Destructure [analyze_app_inv]. *)
Ltac inv_app H :=
  destruct (analyze_app_inv _ _ _ _ _ H) as
    (org & fp & dn & tool & si & lr & ld & pw & pwl & ts & kc & kcl & tc & n2 & n3 &
     b_ll & b_mix & b_nr & b_w & b_hp & b_del & b_st & b_impl & b_mt & b_pr &
     Horg & Hfpm & Hdn & Htool & Hsi & Hlr & Hld & Hpw & Hpwl & Hts & Hkc & Hkcl & Htc &
     Rfp & Rtool & Rlast & Rdays & Hsig & Hn2 & Hfp2 & Hn3 & Hfp3 & Hscore & Hband & Hprim).

(** *** Which signals each step can append *)

Ltac in_list := cbn [In]; repeat (first [left; reflexivity | right]).

Ltac forall_in := repeat (apply Forall_cons; [in_list|]); apply Forall_nil.

Ltac incl_tac :=
  let x := fresh "x" in let Hx := fresh "Hx" in
  intros x Hx; cbn [In] in Hx;
  repeat (destruct Hx as [<- | Hx]; [unfold all_signals, fp_signals, non_expiry_signals, non_sign_in_signals; in_list |]);
  destruct Hx.

Lemma Forall_In_incl {A} (l1 l2 c : list A) :
  Forall (fun s => In s l1) c -> incl l1 l2 -> Forall (fun s => In s l2) c.
Proof. intros H Hi. eapply Forall_impl; [|exact H]. intros s Hs. apply Hi, Hs. Qed.

Lemma single_chunk (b : bool) (s : Signal) : Forall (fun x => In x [s]) (if b then [s] else []).
Proof. destruct b; forall_in. Qed.

Lemma sign_in_chunk fp dt si ds sd :
  Forall (fun s => In s [sig_never_signed_in; sig_stale])
    (new_signals (step_sign_in fp dt si ds sd)) /\
  (fp = true -> new_signals (step_sign_in fp dt si ds sd) = []).
Proof.
  rewrite new_signals_step_sign_in.
  destruct fp; cbn [negb]; [split; [constructor | reflexivity]|].
  split; [|discriminate].
  destruct (_ && _)%bool; [forall_in|].
  destruct ds as [d|]; [destruct (sd <? d)|]; forall_in.
Qed.

Lemma expiry_chunk b1 b2 b3 b4 b5 b6 :
  Forall (fun s => In s [sig_expired_secret; sig_expired_cert; sig_near_expiry_secret;
                         sig_near_expiry_cert; sig_expiry_warning_secret; sig_expiry_warning_cert])
    (new_signals (step_expiry b1 b2 b3 b4 b5 b6)).
Proof.
  rewrite new_signals_step_expiry.
  destruct b1, b2, b3, b4, b5, b6; cbn; forall_in.
Qed.

Lemma delegated_chunk b st :
  Forall (fun s => In s [sig_excessive_delegated_stale; sig_excessive_delegated])
    (new_signals (step_delegated b st)).
Proof. rewrite new_signals_step_delegated. destruct b, st; forall_in. Qed.

Lemma multi_chunk m fp pr :
  Forall (fun s => In s [sig_multi_tenant_privileged; sig_multi_tenant])
    (new_signals (step_multi_tenant m fp pr)) /\
  (fp = true -> new_signals (step_multi_tenant m fp pr) = []).
Proof.
  rewrite new_signals_step_multi_tenant.
  split; [destruct (m && negb fp)%bool; [destruct pr|]; forall_in|].
  intros ->. rewrite andb_false_r. reflexivity.
Qed.

Lemma analyze_app_signals_within fi now sp sd r :
  analyze_app fi now sp sd = Ok r ->
  Forall (fun s => In s all_signals) (signals r) /\
  (is_microsoft_first_party r = true -> Forall (fun s => In s fp_signals) (signals r)).
Proof.
  intros H. inv_app H.
  assert (Hn3' : Forall (fun s => In s [sig_no_assignments]) n3).
  { eapply Forall_impl; [|exact Hn3]. intros s ->. left; reflexivity. }
  split.
  - rewrite Hsig. rewrite !Forall_app.
    repeat split; eapply Forall_In_incl;
      try first [ apply single_chunk | apply (proj1 (sign_in_chunk _ _ _ _ _))
                | apply expiry_chunk | apply delegated_chunk
                | apply (proj1 (multi_chunk _ _ _)) | exact Hn2 | exact Hn3' ];
      incl_tac.
  - intros Hfp. assert (fp = true) as -> by congruence.
    rewrite Hsig, (Hfp2 eq_refl), (Hfp3 eq_refl), (proj2 (sign_in_chunk _ _ _ _ _) eq_refl),
      (proj2 (multi_chunk _ _ _) eq_refl).
    rewrite !Forall_app.
    repeat split; try apply Forall_nil; eapply Forall_In_incl;
      try first [ apply single_chunk | apply (single_chunk true) | apply expiry_chunk
                | apply delegated_chunk ];
      incl_tac.
Qed.

Lemma all_signals_nonneg : Forall (fun s => 0 <= score_contribution s) all_signals.
Proof. unfold all_signals. repeat (apply Forall_cons; [cbn; lia|]). apply Forall_nil. Qed.

Lemma sum_contributions_nonneg l :
  Forall (fun s => 0 <= score_contribution s) l -> 0 <= sum_contributions l.
Proof.
  unfold sum_contributions. induction 1 as [|s l Hs _ IH]; cbn; lia.
Qed.

Lemma fp_signals_keys s :
  In s fp_signals ->
  ~ In (key s) ["no_owners"; "no_assignments"; "stale"; "never_signed_in";
                "disabled_owner"; "multi_tenant_app"].
Proof.
  intros Hs. unfold fp_signals in Hs. cbn [In] in Hs.
  repeat (destruct Hs as [<- | Hs]; [cbn; intuition discriminate|]). destruct Hs.
Qed.

Lemma all_signals_tool_artifact s :
  In s all_signals -> key s = "tool_artifact" -> s = sig_tool_artifact.
Proof.
  intros Hs Hk. unfold all_signals in Hs. cbn [In] in Hs.
  repeat (destruct Hs as [<- | Hs]; [first [reflexivity | cbn in Hk; discriminate] |]).
  destruct Hs.
Qed.

Lemma keys_in_app ks l1 l2 : keys_in ks (l1 ++ l2) = keys_in ks l1 ++ keys_in ks l2.
Proof. unfold keys_in. rewrite map_app, filter_app. reflexivity. Qed.

Lemma keys_in_nil ks c :
  Forall (fun s => str_mem (key s) ks = false) c -> keys_in ks c = [].
Proof. unfold keys_in. induction 1 as [|s c Hs _ IH]; cbn; [reflexivity|]. rewrite Hs. exact IH. Qed.

Lemma keys_in_chunk ks L c :
  Forall (fun s => str_mem (key s) ks = false) non_expiry_signals ->
  Forall (fun s => In s L) c -> incl L non_expiry_signals -> keys_in ks c = [].
Proof.
  intros Hp Hc Hi. apply keys_in_nil. apply Forall_forall. intros s Hs.
  eapply Forall_forall in Hc; [|exact Hs].
  exact (proj1 (Forall_forall _ _) Hp s (Hi s Hc)).
Qed.

(** Only the expiry step appends signals whose keys avoid every
    non-expiry key. *)
Lemma expiry_keys_only fi now sp sd r :
  analyze_app fi now sp sd = Ok r ->
  exists pw pwl ts kc kcl tc,
    py_get sp "passwordCredentials" (PList []) = Ok pw /\ py_iter pw = Ok pwl /\
    cred_tiers fi now pwl no_tiers = Ok ts /\
    py_get sp "keyCredentials" (PList []) = Ok kc /\ py_iter kc = Ok kcl /\
    cred_tiers fi now kcl no_tiers = Ok tc /\
    forall ks, Forall (fun s => str_mem (key s) ks = false) non_expiry_signals ->
      keys_in ks (signals r) =
      keys_in ks (new_signals (step_expiry (t_expired ts) (t_near ts) (t_warning ts)
                                           (t_expired tc) (t_near tc) (t_warning tc))).
Proof.
  intros H. inv_app H.
  assert (Hn3' : Forall (fun s => In s [sig_no_assignments]) n3).
  { eapply Forall_impl; [|exact Hn3]. intros s ->. left; reflexivity. }
  exists pw, pwl, ts, kc, kcl, tc. repeat split; try assumption.
  intros ks Hks. rewrite Hsig, !keys_in_app.
  rewrite (keys_in_chunk ks _ _ Hks (proj1 (sign_in_chunk _ _ _ _ _))) by incl_tac.
  rewrite (keys_in_chunk ks _ _ Hks Hn2) by incl_tac.
  rewrite (keys_in_chunk ks _ _ Hks Hn3') by incl_tac.
  rewrite !(keys_in_chunk ks _ _ Hks (single_chunk _ _)) by incl_tac.
  rewrite (keys_in_chunk ks _ _ Hks (delegated_chunk _ _)) by incl_tac.
  rewrite (keys_in_chunk ks _ _ Hks (proj1 (multi_chunk _ _ _))) by incl_tac.
  cbn [app]. apply app_nil_r.
Qed.

(** One credential with a parsed end date sets exactly one tier flag,
    or none beyond 90 days. *)
Lemma cred_tiers_single fi now c e t ts :
  py_get c "endDateTime" PNone = Ok e -> _parse_dt fi e = Ok (Some t) ->
  cred_tiers fi now [c] no_tiers = Ok ts ->
  ts = tier_update (_days_until now (Some t)) no_tiers.
Proof.
  intros He Ht H. cbn [cred_tiers] in H. rewrite He in H. cbn [bind] in H.
  rewrite Ht in H. cbn [bind cred_tiers] in H. injection H as <-. reflexivity.
Qed.

(** *** The sort of [analyze_all] *)

Lemma string_leb_total s1 s2 : string_leb s1 s2 = false -> string_leb s2 s1 = true.
Proof.
  unfold string_leb. rewrite (String.compare_antisym s2 s1).
  destruct (String.compare s1 s2); cbn; congruence.
Qed.

Lemma key_leb_total k1 k2 : key_leb k1 k2 = false -> key_leb k2 k1 = true.
Proof.
  unfold key_leb. destruct k1 as [a1 s1], k2 as [a2 s2]; cbn [fst snd].
  intros H. apply orb_false_iff in H as [H1 H2]. apply Z.ltb_ge in H1.
  apply orb_true_iff.
  destruct (Z.eq_dec a1 a2) as [<-|Hne].
  - right. rewrite Z.eqb_refl in *. cbn in *. apply string_leb_total. exact H2.
  - left. apply Z.ltb_lt. lia.
Qed.

Definition keyed_le (x y : (Z * string) * AppResult) : Prop := key_leb (fst x) (fst y) = true.

Lemma insert_keyed_hd x y l :
  HdRel keyed_le y l -> keyed_le y x -> HdRel keyed_le y (insert_keyed x l).
Proof.
  intros Hl Hyx. destruct l as [|z rest]; cbn.
  - constructor. exact Hyx.
  - destruct (key_leb (fst x) (fst z)); constructor; [exact Hyx|].
    inversion Hl; assumption.
Qed.

Lemma insert_keyed_sorted x l : Sorted keyed_le l -> Sorted keyed_le (insert_keyed x l).
Proof.
  induction l as [|y rest IH]; intros Hs; cbn.
  - repeat constructor.
  - destruct (key_leb (fst x) (fst y)) eqn:E.
    + constructor; [exact Hs | constructor; exact E].
    + inversion Hs as [|? ? Hrest Hhd]; subst.
      constructor; [apply IH; exact Hrest|].
      apply insert_keyed_hd; [exact Hhd | apply key_leb_total; exact E].
Qed.

Lemma sort_keyed_sorted l : Sorted keyed_le (sort_keyed l).
Proof.
  induction l as [|x rest IH]; cbn; [constructor | apply insert_keyed_sorted; exact IH].
Qed.

Lemma insert_keyed_perm x l : Permutation (insert_keyed x l) (x :: l).
Proof.
  induction l as [|y rest IH]; cbn; [reflexivity|].
  destruct (key_leb (fst x) (fst y)); [reflexivity|].
  transitivity (y :: x :: rest); [constructor; exact IH | constructor].
Qed.

Lemma sort_keyed_perm l : Permutation (sort_keyed l) l.
Proof.
  induction l as [|x rest IH]; cbn; [reflexivity|].
  rewrite insert_keyed_perm. constructor. exact IH.
Qed.

Lemma sort_key_spec str_lower r k :
  sort_key str_lower r = Ok k ->
  k = (- risk_score r, name_key str_lower r) /\
  exists s, display_name r = PStr s /\ name_key str_lower r = str_lower s.
Proof.
  unfold sort_key, name_key. destruct (display_name r) as [| | |s| |]; cbn; intros H;
    try discriminate H.
  injection H as <-. split; [reflexivity | exists s; split; reflexivity].
Qed.

Lemma keyed_spec str_lower results keyed :
  map_res (fun r => k <- sort_key str_lower r;; Ok (k, r)) results = Ok keyed ->
  map snd keyed = results /\
  Forall (fun kr => fst kr = (- risk_score (snd kr), name_key str_lower (snd kr)) /\
                    exists s, display_name (snd kr) = PStr s /\
                              name_key str_lower (snd kr) = str_lower s)
    keyed.
Proof.
  revert keyed. induction results as [|r rest IH]; intros keyed H; cbn in H.
  - injection H as <-. split; constructor.
  - res_inv H. injection H as <-. res_inv E. injection E as <-.
    destruct (IH _ E0) as [Hm Hf].
    destruct (sort_key_spec _ _ _ E1) as [-> Hs].
    split; [cbn; f_equal; exact Hm|]. constructor; [split; [reflexivity | exact Hs] | exact Hf].
Qed.

Lemma Sorted_map_in {A B} (R : A -> A -> Prop) (R' : B -> B -> Prop) (f : A -> B) l :
  (forall x y, In x l -> In y l -> R x y -> R' (f x) (f y)) ->
  Sorted R l -> Sorted R' (map f l).
Proof.
  intros Hf Hs. induction Hs as [|x l Hs IH Hhd]; cbn; constructor.
  - apply IH. intros a b Ha Hb. apply Hf; right; assumption.
  - destruct Hhd as [|y l' Hxy]; cbn; constructor.
    apply Hf; [left; reflexivity | right; left; reflexivity | exact Hxy].
Qed.

(** *** Where [never_signed_in] and [stale] come from *)

Lemma keys_in_chunk' ks L M c :
  Forall (fun s => str_mem (key s) ks = false) M ->
  Forall (fun s => In s L) c -> incl L M -> keys_in ks c = [].
Proof.
  intros Hp Hc Hi. apply keys_in_nil. apply Forall_forall. intros s Hs.
  eapply Forall_forall in Hc; [|exact Hs].
  exact (proj1 (Forall_forall _ _) Hp s (Hi s Hc)).
Qed.

Lemma sign_in_keys_only fi now sp sd r :
  analyze_app fi now sp sd = Ok r ->
  exists si ld,
    py_get sp "_signInActivity" (PDict []) = Ok si /\
    _parse_dt fi (last_sign_in r) = Ok ld /\
    days_since_sign_in r = _days_since now ld /\
    forall ks, Forall (fun s => str_mem (key s) ks = false) non_sign_in_signals ->
      keys_in ks (signals r) =
      keys_in ks (new_signals (step_sign_in (is_microsoft_first_party r) ld si
                                            (_days_since now ld) sd)).
Proof.
  intros H. inv_app H.
  assert (Hn3' : Forall (fun s => In s [sig_no_assignments]) n3).
  { eapply Forall_impl; [|exact Hn3]. intros s ->. left; reflexivity. }
  exists si, ld. rewrite Rlast, Rdays, Rfp. repeat split; try assumption.
  intros ks Hks. rewrite Hsig, !keys_in_app.
  rewrite (keys_in_chunk' ks _ _ _ Hks Hn2) by incl_tac.
  rewrite (keys_in_chunk' ks _ _ _ Hks Hn3') by incl_tac.
  rewrite !(keys_in_chunk' ks _ _ _ Hks (single_chunk _ _)) by incl_tac.
  rewrite (keys_in_chunk' ks _ _ _ Hks (expiry_chunk _ _ _ _ _ _)) by incl_tac.
  rewrite (keys_in_chunk' ks _ _ _ Hks (delegated_chunk _ _)) by incl_tac.
  rewrite (keys_in_chunk' ks _ _ _ Hks (proj1 (multi_chunk _ _ _))) by incl_tac.
  cbn [app]. apply app_nil_r.
Qed.

Lemma In_keys_in k l : In k (map key l) <-> In k (keys_in [k] l).
Proof.
  unfold keys_in. rewrite filter_In. cbn. rewrite String.eqb_refl. cbn. tauto.
Qed.

Lemma sign_in_signal_keys fi now sp sd r :
  analyze_app fi now sp sd = Ok r ->
  exists si ld,
    py_get sp "_signInActivity" (PDict []) = Ok si /\
    _parse_dt fi (last_sign_in r) = Ok ld /\
    days_since_sign_in r = _days_since now ld /\
    (In "never_signed_in" (map key (signals r)) <->
       is_microsoft_first_party r = false /\ ld = None /\ truthy si = true) /\
    (In "stale" (map key (signals r)) <->
       is_microsoft_first_party r = false /\
       exists d, days_since_sign_in r = Some d /\ sd < d).
Proof.
  intros H. destruct (sign_in_keys_only _ _ _ _ _ H) as (si & ld & Hsi & Hld & Hdays & Hk).
  exists si, ld. split; [exact Hsi|]. split; [exact Hld|]. split; [exact Hdays|]. split.
  - rewrite In_keys_in, Hk, <- In_keys_in
      by (unfold non_sign_in_signals; repeat (apply Forall_cons; [reflexivity|]); apply Forall_nil).
    rewrite new_signals_step_sign_in.
    destruct (is_microsoft_first_party r); cbn [negb].
    + cbn. split; [intros [] | intros [Hf _]; discriminate Hf].
    + destruct ld as [t|]; cbn [andb _days_since].
      * destruct (sd <? (now - t) / DAY_US); cbn;
          intuition (first [discriminate | reflexivity]).
      * destruct (truthy si); cbn; intuition (first [discriminate | reflexivity]).
  - rewrite In_keys_in, Hk, <- In_keys_in
      by (unfold non_sign_in_signals; repeat (apply Forall_cons; [reflexivity|]); apply Forall_nil).
    rewrite new_signals_step_sign_in, Hdays.
    destruct (is_microsoft_first_party r); cbn [negb].
    + cbn. split; [intros [] | intros [Hf _]; discriminate Hf].
    + destruct ld as [t|]; cbn [andb _days_since].
      * destruct (Z.ltb_spec sd ((now - t) / DAY_US)); cbn [map key In sig_stale].
        -- split; [intros _; split; [reflexivity | eexists; split; [reflexivity | assumption]]
                  | intros _; left; reflexivity].
        -- split; [intros [] | intros [_ [d [Hd Hlt]]]; injection Hd as <-; lia].
      * destruct (truthy si); cbn [map key In sig_never_signed_in].
        -- split; [intros [Hf|[]]; discriminate Hf | intros [_ [d [Hd _]]]; discriminate Hd].
        -- split; [intros [] | intros [_ [d [Hd _]]]; discriminate Hd].
Qed.

(** *** [analyze_app] does not raise on records of the collector's shape *)

Lemma dict_field fields v k p d :
  dict_of fields v = true -> In (k, p) fields -> p d = true ->
  exists x, py_get v k d = Ok x /\ p x = true.
Proof.
  destruct v as [| | | | |kvs]; try discriminate. unfold dict_of.
  intros H Hin Hd. rewrite forallb_forall in H. specialize (H _ Hin).
  unfold field_ok in H. cbn [fst snd] in H. cbn [py_get].
  destruct (assoc_lookup kvs k); eexists; (split; [reflexivity | assumption]).
Qed.

Lemma py_get_dict_ok kvs k d : exists v, py_get (PDict kvs) k d = Ok v.
Proof. cbn. destruct (assoc_lookup kvs k); eexists; reflexivity. Qed.

Lemma parse_dt_ok fi v :
  (forall s, fi s <> IsoOverflow) -> str_or_null v = true -> exists a, _parse_dt fi v = Ok a.
Proof.
  intros Hno Hv. destruct v as [| | |s| |]; try discriminate Hv; unfold _parse_dt; cbn.
  - eexists; reflexivity.
  - destruct (String.eqb s ""); cbn; [eexists; reflexivity|].
    destruct (fi (replace_char "Z" "+00:00" s)) eqn:E;
      [eexists; reflexivity | eexists; reflexivity | exfalso; exact (Hno _ E)].
Qed.

Lemma in_strset_ok v set : scalar v = true -> exists b, py_in_strset v set = Ok b.
Proof. destruct v; try discriminate; intros _; eexists; reflexivity. Qed.

Lemma sub_sign_in_ok si sub :
  sign_in_ok si = true ->
  In sub ["lastSignInActivity"; "lastDelegatedSignInActivity"; "lastApplicationSignInActivity"] ->
  exists r, sub_sign_in si sub = Ok r /\ str_or_null r = true.
Proof.
  intros H Hin. unfold sign_in_ok in H. unfold sub_sign_in.
  destruct (dict_field _ si sub activity_ok (PDict []) H) as [blk [Hb Hbok]].
  { cbn in Hin. destruct Hin as [<-|[<-|[<-|[]]]]; in_list. }
  { reflexivity. }
  rewrite Hb. cbn [bind]. unfold activity_ok in Hbok.
  destruct (dict_field _ blk "lastSignInDateTime" str_or_null PNone Hbok) as [x [Hx Hxok]];
    [in_list | reflexivity |].
  exists x. split; assumption.
Qed.

Lemma last_sign_in_raw_ok si :
  sign_in_ok si = true -> exists r, last_sign_in_raw_of si = Ok r /\ str_or_null r = true.
Proof.
  intros H. unfold last_sign_in_raw_of.
  destruct (sub_sign_in_ok si "lastSignInActivity" H) as [r1 [H1 Hr1]]; [in_list|].
  rewrite H1. cbn [bind]. destruct (truthy r1); [exists r1; split; [reflexivity | assumption]|].
  destruct (sub_sign_in_ok si "lastDelegatedSignInActivity" H) as [r2 [H2 Hr2]]; [in_list|].
  rewrite H2. cbn [bind]. destruct (truthy r2); [exists r2; split; [reflexivity | assumption]|].
  apply sub_sign_in_ok; [exact H | in_list].
Qed.

Lemma step_owners_ok fp lo ld a : exists a', step_owners fp (PList lo) (PList ld) a = Ok a'.
Proof.
  unfold step_owners. destruct fp; cbn; [eexists; reflexivity|].
  destruct (_ =? 0); [eexists; reflexivity|]. destruct ld; cbn; eexists; reflexivity.
Qed.

Lemma step_assignments_ok fp la ae spt a :
  scalar spt = true -> exists a', step_assignments fp (PList la) ae spt a = Ok a'.
Proof.
  intros H. unfold step_assignments. cbn [py_len bind].
  destruct (_ =? 0); [|eexists; reflexivity].
  destruct (truthy ae); [|eexists; reflexivity].
  destruct (in_strset_ok spt ["ManagedIdentity"; "SocialIdp"] H) as [b Hb].
  rewrite Hb. cbn [bind]. eexists; reflexivity.
Qed.

Lemma cred_tiers_ok fi now l t :
  (forall s, fi s <> IsoOverflow) ->
  Forall (fun c => exists e, py_get c "endDateTime" PNone = Ok e /\ str_or_null e = true) l ->
  exists t', cred_tiers fi now l t = Ok t'.
Proof.
  intros Hno Hl. revert t. induction Hl as [|c l [e [He Hes]] _ IH]; intros t; cbn [cred_tiers].
  - eexists; reflexivity.
  - rewrite He. cbn [bind]. destruct (parse_dt_ok fi e Hno Hes) as [d Hd].
    rewrite Hd. cbn [bind]. apply IH.
Qed.

Lemma cred_tiers_pw_ok fi now l t :
  (forall s, fi s <> IsoOverflow) -> forallb password_ok l = true ->
  exists t', cred_tiers fi now l t = Ok t'.
Proof.
  intros Hno H. apply cred_tiers_ok; [exact Hno|].
  apply Forall_forall. intros c Hc. rewrite forallb_forall in H. specialize (H c Hc).
  unfold password_ok in H. exact (dict_field _ c "endDateTime" str_or_null PNone H ltac:(in_list) eq_refl).
Qed.

Lemma cred_tiers_key_ok fi now l t :
  (forall s, fi s <> IsoOverflow) -> forallb key_ok l = true ->
  exists t', cred_tiers fi now l t = Ok t'.
Proof.
  intros Hno H. apply cred_tiers_ok; [exact Hno|].
  apply Forall_forall. intros c Hc. rewrite forallb_forall in H. specialize (H c Hc).
  unfold key_ok in H. exact (dict_field _ c "endDateTime" str_or_null PNone H ltac:(in_list) eq_refl).
Qed.

Lemma long_lived_ok fi l :
  (forall s, fi s <> IsoOverflow) -> forallb password_ok l = true ->
  exists ll, long_lived_of fi l = Ok ll.
Proof.
  intros Hno. induction l as [|c l IH]; intros Hl; cbn [long_lived_of]; [eexists; reflexivity|].
  cbn [forallb] in Hl. apply andb_true_iff in Hl as [Hc Hl]. unfold password_ok in Hc.
  destruct (dict_field _ c "endDateTime" str_or_null PNone Hc ltac:(in_list) eq_refl)
    as [e [He Hes]].
  destruct (dict_field _ c "startDateTime" str_or_null PNone Hc ltac:(in_list) eq_refl)
    as [st [Hst Hsts]].
  destruct (parse_dt_ok fi e Hno Hes) as [ed Hed].
  destruct (parse_dt_ok fi st Hno Hsts) as [sdt Hsdt].
  destruct (IH Hl) as [tl Htl].
  rewrite He. cbn [bind]. rewrite Hed. cbn [bind].
  destruct ed as [ed|]; cbn [bind].
  - rewrite Hst. cbn [bind]. rewrite Hsdt. cbn [bind].
    destruct sdt; cbn [bind]; rewrite Htl; eexists; reflexivity.
  - rewrite Htl. eexists; reflexivity.
Qed.

Lemma any_wildcard_ok l : forallb is_str l = true -> exists b, any_res wildcard_url l = Ok b.
Proof.
  induction l as [|x l IH]; intros Hl; cbn [any_res]; [eexists; reflexivity|].
  cbn [forallb] in Hl. apply andb_true_iff in Hl as [Hx Hl].
  destruct x as [| | |s| |]; try discriminate Hx. cbn [wildcard_url bind].
  destruct (_ || _)%bool; [eexists; reflexivity | apply IH; exact Hl].
Qed.

Lemma any_hp_ok l :
  forallb permission_ok l = true ->
  exists b, any_res (fun perm => v <- py_get perm "appRoleId" PNone;;
                                 py_in_strset v HIGH_PRIVILEGE_ROLE_IDS) l = Ok b.
Proof.
  induction l as [|x l IH]; intros Hl; cbn [any_res]; [eexists; reflexivity|].
  cbn [forallb] in Hl. apply andb_true_iff in Hl as [Hx Hl]. unfold permission_ok in Hx.
  destruct (dict_field _ x "appRoleId" scalar PNone Hx ltac:(in_list) eq_refl) as [v [Hv Hvs]].
  rewrite Hv. cbn [bind].
  destruct (in_strset_ok v HIGH_PRIVILEGE_ROLE_IDS Hvs) as [b Hb]. rewrite Hb. cbn [bind].
  destruct b; [eexists; reflexivity | apply IH; exact Hl].
Qed.

Lemma matched_ok l : forallb grant_ok l = true -> exists ms, matched_delegated_scopes l = Ok ms.
Proof.
  induction l as [|x l IH]; intros Hl; cbn [matched_delegated_scopes]; [eexists; reflexivity|].
  cbn [forallb] in Hl. apply andb_true_iff in Hl as [Hx Hl]. unfold grant_ok in Hx.
  destruct (dict_field _ x "scope" str_or_null (PStr "") Hx ltac:(in_list) eq_refl) as [v [Hv Hvs]].
  destruct (IH Hl) as [ms Hms].
  rewrite Hv. cbn [bind].
  destruct v as [| | |s| |]; try discriminate Hvs; cbn [truthy py_split bind];
    [| destruct (negb (String.eqb s "")); cbn [py_split bind]];
    rewrite Hms; eexists; reflexivity.
Qed.

Lemma bind_ok_intro {A B} (m : Res A) (k : A -> Res B) a :
  m = Ok a -> (exists r, k a = Ok r) -> exists r, bind m k = Ok r.
Proof. intros -> H. exact H. Qed.


Create HintDb pyok discriminated.
#[local] Hint Resolve py_get_dict_ok parse_dt_ok in_strset_ok step_owners_ok step_assignments_ok
  cred_tiers_pw_ok cred_tiers_key_ok long_lived_ok any_wildcard_ok any_hp_ok matched_ok : pyok.

(** Run a chain of binds, proving each step returns. *)
Ltac ok_tac :=
  lazymatch goal with
  | |- exists r, bind ?m ?k = Ok r =>
      first
        [ eapply bind_ok_intro; [first [eassumption | reflexivity] | cbv beta; ok_tac]
        | let a := fresh "a" in let Ha := fresh "Ha" in let Hm := fresh "Hm" in
          assert (Hm : exists a, m = Ok a) by ok_tac;
          destruct Hm as [a Ha]; eapply bind_ok_intro; [exact Ha | cbv beta; ok_tac] ]
  | |- exists r, Ok ?v = Ok r => exists v; reflexivity
  | |- exists r, (if ?b then _ else _) = Ok r => destruct b; ok_tac
  | |- exists r, ?m = Ok r =>
      first [eexists; eassumption | eexists; reflexivity | eauto with pyok]
  end.

Lemma analyze_app_total fi now sp sd :
  app_ok sp = true -> (forall s, fi s <> IsoOverflow) -> exists r, analyze_app fi now sp sd = Ok r.
Proof.
  intros Hok Hno. unfold app_ok in Hok.
  destruct (dict_field _ _ "displayName" is_str (PStr "Unknown") Hok
              ltac:(unfold app_fields; in_list) eq_refl) as [dn [Hdn Hdn']].
  destruct dn; try discriminate Hdn'.
  destruct (dict_field _ _ "servicePrincipalType" scalar (PStr "") Hok
              ltac:(unfold app_fields; in_list) eq_refl) as [spt [Hspt Hspt']].
  destruct (dict_field _ _ "createdDateTime" str_or_null PNone Hok
              ltac:(unfold app_fields; in_list) eq_refl) as [cr [Hcr Hcr']].
  destruct (dict_field _ _ "appOwnerOrganizationId" scalar PNone Hok
              ltac:(unfold app_fields; in_list) eq_refl) as [org [Horg Horg']].
  destruct (dict_field _ _ "_owners" (list_of any_value) (PList []) Hok
              ltac:(unfold app_fields; in_list) eq_refl) as [ow [How How']].
  destruct ow; try discriminate How'.
  destruct (dict_field _ _ "_appPermissions" (list_of any_value) (PList []) Hok
              ltac:(unfold app_fields; in_list) eq_refl) as [asg [Hasg Hasg']].
  destruct asg; try discriminate Hasg'.
  destruct (dict_field _ _ "_delegatedGrants" (list_of grant_ok) (PList []) Hok
              ltac:(unfold app_fields; in_list) eq_refl) as [dg [Hdg Hdg']].
  destruct dg; try discriminate Hdg'. cbn [list_of] in Hdg'.
  destruct (dict_field _ _ "_assignments" (list_of permission_ok) (PList []) Hok
              ltac:(unfold app_fields; in_list) eq_refl) as [ap [Hap Hap']].
  destruct ap; try discriminate Hap'. cbn [list_of] in Hap'.
  destruct (dict_field _ _ "_disabledOwnerIds" (list_of any_value) (PList []) Hok
              ltac:(unfold app_fields; in_list) eq_refl) as [dis [Hdis Hdis']].
  destruct dis; try discriminate Hdis'.
  destruct (dict_field _ _ "_signInActivity" sign_in_ok (PDict []) Hok
              ltac:(unfold app_fields; in_list) eq_refl) as [si [Hsi Hsi']].
  destruct (dict_field _ _ "passwordCredentials" (list_of password_ok) (PList []) Hok
              ltac:(unfold app_fields; in_list) eq_refl) as [pw [Hpw Hpw']].
  destruct pw; try discriminate Hpw'. cbn [list_of] in Hpw'.
  destruct (dict_field _ _ "keyCredentials" (list_of key_ok) (PList []) Hok
              ltac:(unfold app_fields; in_list) eq_refl) as [kc [Hkc Hkc']].
  destruct kc; try discriminate Hkc'. cbn [list_of] in Hkc'.
  destruct (dict_field _ _ "replyUrls" (list_of is_str) (PList []) Hok
              ltac:(unfold app_fields; in_list) eq_refl) as [ru [Hru Hru']].
  destruct ru; try discriminate Hru'. cbn [list_of] in Hru'.
  destruct (last_sign_in_raw_ok si Hsi') as [lr [Hlr Hlr']].
  destruct sp as [| | | | |kvs]; try discriminate Hok.
  unfold analyze_app. ok_tac.
Qed.











End Facts.

(** ** The signal list of [analyze_app], chunk by chunk *)

Module AppFacts.
Import Py Analyzer Facts.
Local Open Scope list_scope.

Lemma step_owners_shape fp ow dis a a' :
  step_owners fp ow dis a = Ok a' ->
  exists n, a' = extend a n /\
    In n [[]; [sig_no_owners]; [sig_disabled_owner]] /\ (fp = true -> n = []).
Proof.
  unfold step_owners. intros H. destruct fp; cbn [negb] in H.
  - inversion H; subst. exists []. rewrite extend_nil. repeat split; in_list.
  - res_inv H. destruct (x =? 0).
    + inversion H; subst. exists [sig_no_owners]. rewrite emit_extend.
      repeat split; [in_list | discriminate].
    + destruct (truthy dis).
      * res_inv H. inversion H; subst. exists [sig_disabled_owner]. rewrite emit_extend.
        repeat split; [in_list | discriminate].
      * inversion H; subst. exists []. rewrite extend_nil. repeat split; in_list.
Qed.

Lemma step_assignments_shape fp asg ae spt a a' :
  step_assignments fp asg ae spt a = Ok a' ->
  exists n, a' = extend a n /\ In n [[]; [sig_no_assignments]] /\ (fp = true -> n = []).
Proof.
  unfold step_assignments. intros H. res_inv H.
  destruct (x =? 0); [destruct (truthy ae)|].
  - res_inv H. inversion H; subst. rewrite emit_if_extend.
    eexists. split; [reflexivity|].
    destruct fp; rewrite ?andb_false_r, ?andb_true_r; cbn.
    + split; [left; reflexivity | reflexivity].
    + destruct (negb x0); (split; [in_list | discriminate]).
  - inversion H; subst. exists []. rewrite extend_nil. repeat split; in_list.
  - inversion H; subst. exists []. rewrite extend_nil. repeat split; in_list.
Qed.

Lemma analyze_app_flags fi now sp sd r :
  analyze_app fi now sp sd = Ok r ->
  exists fp last_dt sign_in ts tc n2 n3
         (b_ll b_st : bool) pw pwl kc kcl,
    is_microsoft_first_party r = fp /\
    signals r =
      new_signals (step_sign_in fp last_dt sign_in (_days_since now last_dt) sd)
      ++ n2 ++ n3
      ++ (if negb (truthy (account_enabled r)) then [sig_disabled_sp] else [])
      ++ new_signals (step_expiry (t_expired ts) (t_near ts) (t_warning ts)
                                  (t_expired tc) (t_near tc) (t_warning tc))
      ++ (if b_ll then [sig_long_lived_secret] else [])
      ++ (if has_mixed_credentials r then [sig_mixed_credential_types] else [])
      ++ (if has_no_reply_urls r then [sig_no_reply_urls] else [])
      ++ (if has_wildcard_redirect r then [sig_wildcard_redirect_uri] else [])
      ++ (if (has_high_privilege r && b_st)%bool then [sig_high_privilege_stale] else [])
      ++ new_signals (step_delegated (has_excessive_delegated r) b_st)
      ++ (if truthy (has_implicit_grant r) then [sig_implicit_grant_enabled] else [])
      ++ new_signals (step_multi_tenant (is_multi_tenant r) fp
                        (has_high_privilege r || has_excessive_delegated r))
      ++ (if fp then [sig_microsoft_first_party] else [])
      ++ (if is_tool_artifact r then [sig_tool_artifact] else []) /\
    b_st = existsb is_stale_signal
             (new_signals (step_sign_in fp last_dt sign_in (_days_since now last_dt) sd)
              ++ n2 ++ n3
              ++ (if negb (truthy (account_enabled r)) then [sig_disabled_sp] else [])
              ++ new_signals (step_expiry (t_expired ts) (t_near ts) (t_warning ts)
                                          (t_expired tc) (t_near tc) (t_warning tc))
              ++ (if b_ll then [sig_long_lived_secret] else [])
              ++ (if has_mixed_credentials r then [sig_mixed_credential_types] else [])
              ++ (if has_no_reply_urls r then [sig_no_reply_urls] else [])
              ++ (if has_wildcard_redirect r then [sig_wildcard_redirect_uri] else [])) /\
    In n2 [[]; [sig_no_owners]; [sig_disabled_owner]] /\ (fp = true -> n2 = []) /\
    In n3 [[]; [sig_no_assignments]] /\ (fp = true -> n3 = []) /\
    has_expired_secret r = t_expired ts /\ has_near_expiry_secret r = t_near ts /\
    has_expiry_warning_secret r = t_warning ts /\
    has_expired_cert r = t_expired tc /\ has_near_expiry_cert r = t_near tc /\
    has_expiry_warning_cert r = t_warning tc /\
    py_get sp "passwordCredentials" (PList []) = Ok pw /\
    py_iter pw = Ok pwl /\ cred_tiers fi now pwl no_tiers = Ok ts /\
    py_get sp "keyCredentials" (PList []) = Ok kc /\
    py_iter kc = Ok kcl /\ cred_tiers fi now kcl no_tiers = Ok tc.
Proof.
  intros H. unfold analyze_app in H. res_inv H.
  destruct (step_owners_shape _ _ _ _ _ E19) as [n2 [-> [Hn2 Hfp2]]].
  destruct (step_assignments_shape _ _ _ _ _ _ E20) as [n3 [-> [Hn3 Hfp3]]].
  injection H as <-.
  cbn [signals is_microsoft_first_party is_tool_artifact account_enabled has_mixed_credentials
       has_no_reply_urls has_wildcard_redirect has_high_privilege has_excessive_delegated
       has_implicit_grant is_multi_tenant has_expired_secret has_near_expiry_secret
       has_expiry_warning_secret has_expired_cert has_near_expiry_cert has_expiry_warning_cert].
  repeat rewrite emit_if_step_extend.
  rewrite ?step_multi_tenant_extend, ?step_delegated_extend, ?step_expiry_extend,
    ?step_sign_in_extend.
  rewrite ?new_signals_emit_if, ?extend_extend.
  do 13 eexists.
  split; [reflexivity|]. split; [reflexivity|].
  split; [cbn [fst extend]; rewrite <- ?app_assoc; reflexivity|].
  repeat (split; [first [eassumption | reflexivity]|]). eassumption.
Qed.

(** Ltac destructuring [analyze_app_flags]. *)
Ltac flags_app H :=
  destruct (analyze_app_flags _ _ _ _ _ H) as
    (fp & ld & si & ts & tc & n2 & n3 & b_ll & b_st & pw & pwl & kc & kcl & Rfp & Hsig & Hst & Hn2 & Hfp2 & Hn3 & Hfp3 &
     Rexs & Rnears & Rwarns & Rexc & Rnearc & Rwarnc & Hpw & Hpwl & Hts & Hkc & Hkcl & Htc).

(** *** Key membership as a boolean *)

Definition has_key (k : string) (l : list Signal) : bool :=
  existsb (fun s => String.eqb (key s) k) l.

Lemma has_key_In k l : has_key k l = true <-> In k (map key l).
Proof.
  unfold has_key. rewrite existsb_exists, in_map_iff. split.
  - intros [s [Hs Hk]]. apply String.eqb_eq in Hk. exists s. split; assumption.
  - intros [s [Hk Hs]]. exists s. split; [assumption | apply String.eqb_eq; assumption].
Qed.

Lemma has_key_app k l1 l2 : has_key k (l1 ++ l2) = (has_key k l1 || has_key k l2)%bool.
Proof. unfold has_key. apply existsb_app. Qed.

Lemma has_key_if k (b : bool) l1 l2 :
  has_key k (if b then l1 else l2) = if b then has_key k l1 else has_key k l2.
Proof. destruct b; reflexivity. Qed.

Lemma has_key_among k c cs :
  In c cs -> forallb (fun c' => negb (has_key k c')) cs = true -> has_key k c = false.
Proof.
  intros Hin Hall. rewrite forallb_forall in Hall. apply negb_true_iff, Hall, Hin.
Qed.

Lemma stale_signal_has_key l :
  existsb is_stale_signal l = (has_key "stale" l || has_key "never_signed_in" l)%bool.
Proof.
  induction l as [|s l IH]; [reflexivity|]. cbn [existsb]. rewrite IH. clear IH.
  unfold is_stale_signal, str_mem, has_key. cbn [existsb].
  destruct (String.eqb (key s) "stale"), (String.eqb (key s) "never_signed_in"),
    (existsb (fun s => String.eqb (key s) "stale") l),
    (existsb (fun s => String.eqb (key s) "never_signed_in") l); reflexivity.
Qed.

Lemma has_key_within k L c :
  Forall (fun s => In s L) c -> has_key k L = false -> has_key k c = false.
Proof.
  intros Hc HL. unfold has_key in *. apply not_true_iff_false. intros Hk.
  apply existsb_exists in Hk as [s [Hs Hk]].
  apply not_true_iff_false in HL. apply HL, existsb_exists. exists s. split; [|exact Hk].
  exact (proj1 (Forall_forall _ _) Hc s Hs).
Qed.

Lemma if_false_false (b : bool) : (if b then false else false) = false.
Proof. destruct b; reflexivity. Qed.

Lemma if_true_false (b : bool) : (if b then true else false) = b.
Proof. destruct b; reflexivity. Qed.

(** Compute [has_key k] over the chunks of [analyze_app_flags] for a
    concrete key [k]. *)
Ltac key_norm Hn2 Hn3 :=
  rewrite ?has_key_app;
  repeat (rewrite (has_key_within _ _ _ (proj1 (sign_in_chunk _ _ _ _ _))) by reflexivity);
  repeat (rewrite (has_key_among _ _ _ Hn2) by reflexivity);
  repeat (rewrite (has_key_among _ _ _ Hn3) by reflexivity);
  rewrite ?new_signals_step_expiry, ?new_signals_step_delegated, ?new_signals_step_multi_tenant;
  rewrite ?has_key_app;
  repeat rewrite has_key_if;
  cbn [has_key existsb key sig_disabled_sp sig_expired_secret sig_expired_cert
       sig_near_expiry_secret sig_near_expiry_cert sig_expiry_warning_secret
       sig_expiry_warning_cert sig_long_lived_secret sig_mixed_credential_types
       sig_no_reply_urls sig_wildcard_redirect_uri sig_high_privilege_stale
       sig_excessive_delegated_stale sig_excessive_delegated sig_implicit_grant_enabled
       sig_multi_tenant_privileged sig_multi_tenant sig_microsoft_first_party
       sig_tool_artifact String.eqb Ascii.eqb Bool.eqb orb];
  rewrite ?if_false_false, ?if_true_false, ?orb_false_l, ?orb_false_r.

Lemma key_hp_stale fi now sp sd r :
  analyze_app fi now sp sd = Ok r ->
  has_key "high_privilege_stale" (signals r) =
    (has_high_privilege r &&
     (has_key "stale" (signals r) || has_key "never_signed_in" (signals r)))%bool.
Proof.
  intros H. flags_app H. rewrite Hsig. rewrite Hst, stale_signal_has_key.
  key_norm Hn2 Hn3. reflexivity.
Qed.

(** *** Chunks with distinct keys *)

Definition chunk_ok (L c : list Signal) : Prop := Forall (fun s => In s L) c /\ NoDup (map key c).

Definition keys_disjoint (L1 L2 : list Signal) : bool :=
  forallb (fun s => negb (has_key (key s) L2)) L1.

Lemma chunk_ok_app L1 L2 c1 c2 :
  chunk_ok L1 c1 -> chunk_ok L2 c2 -> keys_disjoint L1 L2 = true ->
  chunk_ok (L1 ++ L2) (c1 ++ c2).
Proof.
  intros [F1 N1] [F2 N2] D. split.
  - apply Forall_app. split.
    + eapply Forall_impl; [|exact F1]. intros s Hs. apply in_or_app. left. exact Hs.
    + eapply Forall_impl; [|exact F2]. intros s Hs. apply in_or_app. right. exact Hs.
  - rewrite map_app. apply NoDup_app; [exact N1 | exact N2 |].
    intros k Hk1 Hk2. apply in_map_iff in Hk1 as [s1 [<- Hs1]].
    apply in_map_iff in Hk2 as [s2 [Hk Hs2]].
    unfold keys_disjoint in D. rewrite forallb_forall in D.
    specialize (D s1 (proj1 (Forall_forall _ _) F1 s1 Hs1)).
    apply negb_true_iff, not_true_iff_false in D. apply D, has_key_In, in_map_iff.
    exists s2. split; [exact Hk | exact (proj1 (Forall_forall _ _) F2 s2 Hs2)].
Qed.

Lemma chunk_nodup L c : chunk_ok L c -> NoDup (map key c).
Proof. intros [_ N]. exact N. Qed.

Ltac nodup_tac :=
  repeat (constructor; [cbn; intuition discriminate|]); constructor.

Ltac chunk_done := split; [forall_in | cbn [map key]; nodup_tac].

Lemma chunk_single (b : bool) (s : Signal) : chunk_ok [s] (if b then [s] else []).
Proof. destruct b; chunk_done. Qed.

Lemma chunk_sign_in fp dt si ds sd :
  chunk_ok [sig_never_signed_in; sig_stale] (new_signals (step_sign_in fp dt si ds sd)).
Proof.
  rewrite new_signals_step_sign_in.
  destruct (negb fp); [|chunk_done].
  destruct (_ && _)%bool; [chunk_done|].
  destruct ds as [d|]; [destruct (sd <? d)|]; chunk_done.
Qed.

Lemma chunk_expiry b1 b2 b3 b4 b5 b6 :
  chunk_ok [sig_expired_secret; sig_expired_cert; sig_near_expiry_secret;
            sig_near_expiry_cert; sig_expiry_warning_secret; sig_expiry_warning_cert]
    (new_signals (step_expiry b1 b2 b3 b4 b5 b6)).
Proof. rewrite new_signals_step_expiry. destruct b1, b2, b3, b4, b5, b6; cbn; chunk_done. Qed.

Lemma chunk_delegated b st :
  chunk_ok [sig_excessive_delegated_stale; sig_excessive_delegated]
    (new_signals (step_delegated b st)).
Proof. rewrite new_signals_step_delegated. destruct b, st; chunk_done. Qed.

Lemma chunk_multi m fp pr :
  chunk_ok [sig_multi_tenant_privileged; sig_multi_tenant]
    (new_signals (step_multi_tenant m fp pr)).
Proof.
  rewrite new_signals_step_multi_tenant. destruct (m && negb fp)%bool; [destruct pr|]; chunk_done.
Qed.

Lemma chunk_n2 n : In n [[]; [sig_no_owners]; [sig_disabled_owner]] ->
  chunk_ok [sig_no_owners; sig_disabled_owner] n.
Proof. intros H. cbn in H. repeat destruct H as [<- | H]; try destruct H; chunk_done. Qed.

Lemma chunk_n3 n : In n [[]; [sig_no_assignments]] -> chunk_ok [sig_no_assignments] n.
Proof. intros H. cbn in H. repeat destruct H as [<- | H]; try destruct H; chunk_done. Qed.

Ltac chunk_fact :=
  lazymatch goal with
  | |- chunk_ok _ (if ?b then [?s] else []) => apply (chunk_single b s)
  | |- chunk_ok _ (new_signals (step_sign_in _ _ _ _ _)) => apply chunk_sign_in
  | |- chunk_ok _ (new_signals (step_expiry _ _ _ _ _ _)) => apply chunk_expiry
  | |- chunk_ok _ (new_signals (step_delegated _ _)) => apply chunk_delegated
  | |- chunk_ok _ (new_signals (step_multi_tenant _ _ _)) => apply chunk_multi
  | H : In ?n [[]; [sig_no_owners]; [sig_disabled_owner]] |- chunk_ok _ ?n => apply (chunk_n2 _ H)
  | H : In ?n [[]; [sig_no_assignments]] |- chunk_ok _ ?n => apply (chunk_n3 _ H)
  end.

Ltac chunks :=
  lazymatch goal with
  | |- chunk_ok _ (?c1 ++ ?rest) => eapply chunk_ok_app; [chunk_fact | chunks | reflexivity]
  | |- chunk_ok _ _ => chunk_fact
  end.


(** *** The signals of one key *)

Definition sigs_with (k : string) (l : list Signal) : list Signal :=
  filter (fun s => String.eqb (key s) k) l.

Lemma sigs_with_app k l1 l2 : sigs_with k (l1 ++ l2) = sigs_with k l1 ++ sigs_with k l2.
Proof. apply filter_app. Qed.

Lemma sigs_with_if k (b : bool) l1 l2 :
  sigs_with k (if b then l1 else l2) = if b then sigs_with k l1 else sigs_with k l2.
Proof. destruct b; reflexivity. Qed.

Lemma sigs_with_none k c : has_key k c = false -> sigs_with k c = [].
Proof.
  unfold has_key, sigs_with. induction c as [|s c IH]; cbn; [reflexivity|].
  destruct (String.eqb (key s) k); [discriminate | exact IH].
Qed.

Lemma if_nil_nil {A} (b : bool) : (if b then @nil A else []) = [].
Proof. destruct b; reflexivity. Qed.

Ltac sig_norm Hn2 Hn3 :=
  rewrite ?sigs_with_app;
  repeat (rewrite (sigs_with_none _ (new_signals (step_sign_in _ _ _ _ _)))
            by (apply (has_key_within _ _ _ (proj1 (sign_in_chunk _ _ _ _ _))); reflexivity));
  let n2 := match type of Hn2 with In ?n _ => n end in
  try (rewrite (sigs_with_none _ n2) by (apply (has_key_among _ _ _ Hn2); reflexivity));
  let n3 := match type of Hn3 with In ?n _ => n end in
  try (rewrite (sigs_with_none _ n3) by (apply (has_key_among _ _ _ Hn3); reflexivity));
  rewrite ?new_signals_step_expiry, ?new_signals_step_delegated, ?new_signals_step_multi_tenant;
  rewrite ?sigs_with_app;
  repeat rewrite sigs_with_if;
  cbn [sigs_with filter key sig_disabled_sp sig_expired_secret sig_expired_cert
       sig_near_expiry_secret sig_near_expiry_cert sig_expiry_warning_secret
       sig_expiry_warning_cert sig_long_lived_secret sig_mixed_credential_types
       sig_no_reply_urls sig_wildcard_redirect_uri sig_high_privilege_stale
       sig_excessive_delegated_stale sig_excessive_delegated sig_implicit_grant_enabled
       sig_multi_tenant_privileged sig_multi_tenant sig_microsoft_first_party
       sig_tool_artifact String.eqb Ascii.eqb Bool.eqb];
  rewrite ?if_nil_nil; cbn [app]; rewrite ?app_nil_r.





(** *** The primary recommendation *)

Lemma str_lookup_in tbl k v : str_lookup tbl k = Some v -> In v (map snd tbl).
Proof.
  induction tbl as [|[k' v'] tbl IH]; cbn; [discriminate|].
  destruct (String.eqb k k'); [intros [= ->]; left; reflexivity | intros H; right; exact (IH H)].
Qed.

Definition recommendation_texts : list string :=
  map snd recs ++ ["Review and remediate flagged issues."].

Lemma recommendation_in k ae : In (_recommendation_for_signal k ae) recommendation_texts.
Proof.
  unfold _recommendation_for_signal, recommendation_texts.
  destruct (str_lookup recs k) eqn:E; apply in_or_app.
  - left. exact (str_lookup_in _ _ _ E).
  - right. left. reflexivity.
Qed.

Lemma scan_found sevs active ae :
  (exists s, In s active /\ In (severity s) sevs) ->
  exists s, In s active /\ scan_severities sevs active ae = _recommendation_for_signal (key s) ae.
Proof.
  induction sevs as [|sev rest IH]; intros [s [Hs Hsev]]; [destruct Hsev|]. cbn [scan_severities].
  destruct (find (fun s => String.eqb (severity s) sev) active) as [sg|] eqn:E.
  - exists sg. split; [exact (proj1 (find_some _ _ E)) | reflexivity].
  - apply IH. exists s. split; [exact Hs|]. destruct Hsev as [Heq|Hsev]; [|exact Hsev].
    exfalso. pose proof (find_none _ _ E s Hs) as Hf. cbv beta in Hf.
    rewrite Heq, String.eqb_refl in Hf. discriminate.
Qed.

Lemma all_signals_severities : Forall (fun s => In (severity s) severity_order) all_signals.
Proof. unfold all_signals. repeat (apply Forall_cons; [cbn; in_list|]). apply Forall_nil. Qed.

Definition ms_only_text : string :=
  "Microsoft first-party app — verify this service is still required in your tenant.".

Lemma primary_rec_values sigs ae :
  Forall (fun s => In s all_signals) sigs ->
  match sigs with
  | [] => _primary_recommendation sigs ae = "No issues detected. Periodic review recommended."
  | _ => In (_primary_recommendation sigs ae) (ms_only_text :: recommendation_texts)
  end.
Proof.
  intros Hall. destruct sigs as [|s0 rest]; [reflexivity|].
  unfold _primary_recommendation.
  set (act := if existsb _ _ then _ else _).
  assert (Hsub : forall s, In s act -> In s (s0 :: rest)).
  { intros s Hs. subst act. destruct (existsb _ _); [apply filter_In in Hs as [Hs _]|]; exact Hs. }
  clearbody act. destruct act as [|a al]; [left; reflexivity|].
  right. destruct (scan_found severity_order (a :: al) ae) as [s [_ ->]].
  - exists a. split; [left; reflexivity|].
    apply (proj1 (Forall_forall _ _) all_signals_severities).
    apply (proj1 (Forall_forall _ _) Hall). apply Hsub. left. reflexivity.
  - apply recommendation_in.
Qed.

(** *** Expiry windows in instants *)

Lemma div_day_bounds z : DAY_US * (z / DAY_US) <= z < DAY_US * (z / DAY_US) + DAY_US.
Proof.
  pose proof (Z.div_mod z DAY_US ltac:(unfold DAY_US; lia)).
  pose proof (Z.mod_pos_bound z DAY_US ltac:(unfold DAY_US; lia)).
  lia.
Qed.

Definition expired_at (now : Z) (e : option Z) : bool :=
  match e with Some x => x <? now | None => false end.

Definition near_at (now : Z) (e : option Z) : bool :=
  match e with Some x => (now <=? x) && (x <? now + 31 * DAY_US) | None => false end.

Definition warning_at (now : Z) (e : option Z) : bool :=
  match e with
  | Some x => (now + 31 * DAY_US <=? x) && (x <? now + 91 * DAY_US)
  | None => false
  end.

Lemma tier_update_window now e t :
  tier_update (_days_until now e) t =
  mkTiers (t_expired t || expired_at now e) (t_near t || near_at now e)
          (t_warning t || warning_at now e).
Proof.
  destruct t as [a b c]. destruct e as [x|]; cbn [tier_update _days_until expired_at near_at warning_at t_expired t_near t_warning];
    [|rewrite !orb_false_r; reflexivity].
  pose proof (div_day_bounds (x - now)) as Hb.
  set (d := (x - now) / DAY_US) in *. unfold NEAR_EXPIRY_DAYS, NEAR_EXPIRY_WARN_DAYS, DAY_US in *.
  destruct (Z.ltb_spec d 0); [|destruct (Z.leb_spec d 30); [|destruct (Z.leb_spec d 90)]];
    destruct (Z.ltb_spec x now), (Z.leb_spec now x), (Z.ltb_spec x (now + 31 * 86400000000)),
      (Z.leb_spec (now + 31 * 86400000000) x), (Z.ltb_spec x (now + 91 * 86400000000));
    cbn [andb]; rewrite ?orb_false_r, ?orb_true_r; try reflexivity; exfalso; lia.
Qed.

Lemma cred_tiers_windows fi now l t0 t :
  cred_tiers fi now l t0 = Ok t ->
  exists ends,
    Forall2 (fun c e => exists raw, py_get c "endDateTime" PNone = Ok raw /\ _parse_dt fi raw = Ok e)
      l ends /\
    t_expired t = (t_expired t0 || existsb (expired_at now) ends)%bool /\
    t_near t = (t_near t0 || existsb (near_at now) ends)%bool /\
    t_warning t = (t_warning t0 || existsb (warning_at now) ends)%bool.
Proof.
  revert t0. induction l as [|c l IH]; intros t0 H; cbn [cred_tiers] in H.
  - injection H as <-. exists []. rewrite !orb_false_r. repeat split. constructor.
  - res_inv H. destruct (IH _ H) as (ends & Hf & He & Hn & Hw).
    rewrite tier_update_window in He, Hn, Hw. cbn [t_expired t_near t_warning] in He, Hn, Hw.
    exists (x0 :: ends). split; [constructor; [exists x; split; assumption | exact Hf]|].
    cbn [existsb]. rewrite He, Hn, Hw, !orb_assoc. repeat split.
Qed.


Definition end_instant (fi : string -> iso_outcome) (c : pyval) (e : option Z) : Prop :=
  exists raw, py_get c "endDateTime" PNone = Ok raw /\ _parse_dt fi raw = Ok e.

End AppFacts.

(** ** Reasoning about the reporting code *)

Module ReportFacts.
Import Py Analyzer Facts AppFacts Report.
Local Open Scope list_scope.

Definition count_band (b : string) (results : list AppResult) : Z :=
  count_if (fun r => String.eqb (risk_band r) b) results.

Definition dict_sum (d : band_dict) : Z := fold_right (fun kv acc => snd kv + acc) 0 d.

Definition get0 (d : band_dict) (k : string) : Z :=
  match dict_get d k with Some c => c | None => 0 end.

Lemma dict_get_set d k v k' :
  dict_get (dict_set d k v) k' = if String.eqb k' k then Some v else dict_get d k'.
Proof.
  induction d as [|[k0 v0] rest IH]; cbn.
  - destruct (String.eqb k' k); reflexivity.
  - destruct (String.eqb_spec k k0) as [->|Hne]; cbn.
    + destruct (String.eqb k' k0); reflexivity.
    + rewrite IH. destruct (String.eqb_spec k' k0) as [->|]; [|reflexivity].
      destruct (String.eqb_spec k0 k); [congruence | reflexivity].
Qed.

Lemma dict_sum_set d k v : dict_sum (dict_set d k v) = dict_sum d - get0 d k + v.
Proof.
  unfold get0, dict_sum. induction d as [|[k0 v0] rest IH]; cbn [dict_set dict_get fold_right snd].
  - lia.
  - destruct (String.eqb_spec k k0) as [->|Hne]; cbn [fold_right snd]; [lia | rewrite IH; lia].
Qed.

Lemma dict_keys_set d k v : In k (map fst d) -> map fst (dict_set d k v) = map fst d.
Proof.
  induction d as [|[k0 v0] rest IH]; cbn; [intros []|].
  intros Hk. destruct (String.eqb_spec k k0) as [->|Hne]; cbn; [reflexivity|].
  rewrite IH; [reflexivity|]. destruct Hk as [->|Hk]; [congruence|exact Hk].
Qed.

Definition opt_add (o : option Z) (n : Z) : option Z :=
  match o with Some c => Some (c + n) | None => if n =? 0 then None else Some n end.

Lemma count_band_cons b r rs :
  count_band b (r :: rs) = (if String.eqb (risk_band r) b then 1 else 0) + count_band b rs.
Proof.
  unfold count_band, count_if. cbn. destruct (String.eqb (risk_band r) b); cbn [List.length]; lia.
Qed.

Lemma count_if_nonneg p rs : 0 <= count_if p rs.
Proof. unfold count_if. lia. Qed.

Lemma count_if_pos p rs : (0 <? count_if p rs) = existsb p rs.
Proof.
  unfold count_if. induction rs as [|r rest IH]; cbn; [reflexivity|].
  destruct (p r); cbn [List.length]; [|exact IH]. apply Z.ltb_lt. lia.
Qed.

Lemma fold_band_get rs d b :
  dict_get (fold_left band_step rs d) b = opt_add (dict_get d b) (count_band b rs).
Proof.
  revert d. induction rs as [|r rest IH]; intros d; cbn [fold_left].
  - unfold count_band, count_if. cbn. destruct (dict_get d b); cbn [opt_add]; [f_equal; lia | reflexivity].
  - rewrite IH. unfold band_step. rewrite dict_get_set, count_band_cons.
    pose proof (count_if_nonneg (fun r => String.eqb (risk_band r) b) rest) as Hn.
    fold (count_band b rest) in Hn.
    destruct (String.eqb_spec b (risk_band r)) as [->|Hne].
    + rewrite String.eqb_refl. destruct (dict_get d (risk_band r)); cbn [opt_add]; [f_equal; lia|].
      replace (1 + count_band (risk_band r) rest =? 0) with false
        by (symmetry; apply Z.eqb_neq; lia).
      f_equal; lia.
    + destruct (String.eqb_spec (risk_band r) b); [congruence|].
      destruct (dict_get d b); cbn [opt_add]; [f_equal; lia|]. reflexivity.
Qed.

Lemma fold_band_sum rs d :
  dict_sum (fold_left band_step rs d) = dict_sum d + Z.of_nat (List.length rs).
Proof.
  revert d. induction rs as [|r rest IH]; intros d; cbn [fold_left List.length].
  - lia.
  - rewrite IH. unfold band_step. rewrite dict_sum_set. unfold get0.
    destruct (dict_get d (risk_band r)); lia.
Qed.

Lemma fold_band_keys rs d :
  (forall r, In r rs -> In (risk_band r) (map fst d)) ->
  map fst (fold_left band_step rs d) = map fst d.
Proof.
  revert d. induction rs as [|r rest IH]; intros d H; cbn [fold_left]; [reflexivity|].
  unfold band_step at 2. rewrite IH.
  - apply dict_keys_set. apply H. left. reflexivity.
  - intros r' Hr'. unfold band_step. rewrite dict_keys_set; [|apply H; left; reflexivity].
    apply H. right. exact Hr'.
Qed.

Lemma existsb_false_iff {A} (p : A -> bool) l :
  existsb p l = false <-> forall x, In x l -> p x = false.
Proof.
  split.
  - intros H x Hx. destruct (p x) eqn:E; [|reflexivity].
    assert (existsb p l = true) by (apply existsb_exists; exists x; split; assumption). congruence.
  - intros H. destruct (existsb p l) eqn:E; [|reflexivity].
    apply existsb_exists in E as [x [Hx Hp]]. rewrite H in Hp by exact Hx. discriminate.
Qed.

Lemma band_counts_get rs b :
  dict_get (band_counts rs) b =
  if existsb (String.eqb b) (band_names ++ map risk_band rs)
  then Some (count_band b rs) else None.
Proof.
  unfold band_counts. rewrite fold_band_get. rewrite existsb_app.
  replace (dict_get (map (fun b0 => (b0, 0)) band_names) b)
    with (if existsb (String.eqb b) band_names then Some 0 else None)
    by (cbn; destruct (String.eqb b "critical"), (String.eqb b "high"), (String.eqb b "medium"),
          (String.eqb b "low"), (String.eqb b "clean"); reflexivity).
  destruct (existsb (String.eqb b) band_names); cbn [orb opt_add]; [reflexivity|].
  assert (Hc : existsb (String.eqb b) (map risk_band rs) = (0 <? count_band b rs)).
  { unfold count_band. rewrite count_if_pos. induction rs as [|r rest IH]; cbn; [reflexivity|].
    rewrite IH. destruct (String.eqb_spec b (risk_band r)), (String.eqb_spec (risk_band r) b);
      congruence. }
  rewrite Hc. pose proof (count_if_nonneg (fun r => String.eqb (risk_band r) b) rs).
  fold (count_band b rs) in H.
  destruct (Z.eqb_spec (count_band b rs) 0) as [E|E].
  - rewrite E. reflexivity.
  - replace (0 <? count_band b rs) with true by (symmetry; apply Z.ltb_lt; lia). reflexivity.
Qed.

Lemma risk_band_in_names z : In (_risk_band z) band_names.
Proof.
  unfold _risk_band, band_names.
  destruct (75 <=? z), (50 <=? z), (25 <=? z), (0 <? z); cbn; tauto.
Qed.

Lemma analyze_all_results str_lower fi now raw sd rs :
  analyze_all str_lower fi now raw sd = Ok rs ->
  forall r, In r rs -> exists sp, analyze_app fi now sp sd = Ok r.
Proof.
  unfold analyze_all. intros H r Hr. res_inv H. injection H as <-.
  destruct (keyed_spec _ _ _ E2) as [Hk _].
  assert (Hin : In r (map snd x2)).
  { eapply Permutation_in; [|exact Hr]. apply Permutation_map. apply sort_keyed_perm. }
  rewrite Hk in Hin. destruct (map_res_in _ _ _ _ E1 Hin) as [sp [_ Hsp]].
  exists sp. exact Hsp.
Qed.

Lemma analyze_all_bands str_lower fi now raw sd rs :
  analyze_all str_lower fi now raw sd = Ok rs ->
  forall r, In r rs -> risk_band r = _risk_band (risk_score r).
Proof.
  intros H r Hr. destruct (analyze_all_results _ _ _ _ _ _ H r Hr) as [sp Hsp].
  inv_app Hsp. exact Hband.
Qed.

Lemma filter_min_idx_spec m (p : AppResult -> bool) rs :
  (forall r, In r rs -> exists i, list_index band_order (risk_band r) = Some i /\ Nat.leb m i = p r) ->
  filter_min_idx m rs = Some (filter p rs).
Proof.
  induction rs as [|r rest IH]; intros H; cbn [filter_min_idx filter]; [reflexivity|].
  destruct (H r (or_introl eq_refl)) as [i [Hi Hp]]. rewrite Hi, IH.
  - rewrite Hp. reflexivity.
  - intros r' Hr'. apply H. right. exact Hr'.
Qed.

Definition band_rank (z : Z) : nat :=
  if 75 <=? z then 4 else if 50 <=? z then 3 else if 25 <=? z then 2 else if 0 <? z then 1 else 0.

Lemma band_index z : list_index band_order (_risk_band z) = Some (band_rank z).
Proof.
  unfold _risk_band, band_rank.
  destruct (75 <=? z), (50 <=? z), (25 <=? z), (0 <? z); reflexivity.
Qed.

Lemma band_rank_threshold m t z :
  In (m, t) [(1%nat, 1); (2%nat, 25); (3%nat, 50); (4%nat, 75)] ->
  Nat.leb m (band_rank z) = (t <=? z).
Proof.
  intros Hm. unfold band_rank.
  destruct (Z.leb_spec 75 z); [|destruct (Z.leb_spec 50 z); [|destruct (Z.leb_spec 25 z);
    [|destruct (Z.ltb_spec 0 z)]]];
  cbn in Hm; repeat destruct Hm as [Hm|Hm]; try contradiction; injection Hm as <- <-; cbn;
  symmetry; first [apply Z.leb_le; lia | apply Z.leb_gt; lia].
Qed.

Lemma filter_true {A} (l : list A) : filter (fun _ => true) l = l.
Proof. induction l; cbn; [reflexivity | f_equal; assumption]. Qed.

Lemma band_counts_known rs b :
  In b band_names -> dict_get (band_counts rs) b = Some (count_band b rs).
Proof.
  intros Hb. rewrite band_counts_get, existsb_app.
  replace (existsb (String.eqb b) band_names) with true; [reflexivity|].
  symmetry. apply existsb_exists. exists b. split; [exact Hb | apply String.eqb_refl].
Qed.

Lemma list_index_none l x : ~ In x l -> list_index l x = None.
Proof.
  induction l as [|y rest IH]; intros H; cbn; [reflexivity|].
  destruct (String.eqb_spec y x) as [->|]; [exfalso; apply H; left; reflexivity|].
  rewrite IH; [reflexivity|]. intros Hx; apply H; right; exact Hx.
Qed.

Lemma existsb_orb {A} (p q : A -> bool) l :
  existsb (fun x => (p x || q x)%bool) l = (existsb p l || existsb q l)%bool.
Proof.
  induction l as [|x rest IH]; cbn; [reflexivity|]. rewrite IH.
  destruct (p x), (q x), (existsb p rest), (existsb q rest); reflexivity.
Qed.

Lemma count_pos_add a b : 0 <= a -> 0 <= b -> (0 <? a + b) = ((0 <? a) || (0 <? b))%bool.
Proof.
  intros Ha Hb. destruct (Z.ltb_spec 0 (a + b)), (Z.ltb_spec 0 a), (Z.ltb_spec 0 b);
    cbn; reflexivity || lia.
Qed.

Lemma covering_of_filter app_id ps :
  CaAnalyzer.covering_of app_id ps =
  map CaAnalyzer.display_name (filter (CaAnalyzer.covers_b app_id) ps).
Proof.
  induction ps as [|p rest IH]; [reflexivity|].
  rewrite covering_of_cons. cbn [filter]. rewrite IH.
  destruct (CaAnalyzer.covers_b app_id p); reflexivity.
Qed.

Lemma map_res_Forall2 {A B} (f : A -> Res B) l l' :
  map_res f l = Ok l' -> Forall2 (fun x y => f x = Ok y) l l'.
Proof.
  revert l'. induction l as [|x rest IH]; intros l' H; cbn in H.
  - injection H as <-. constructor.
  - res_inv H. injection H as <-. constructor; [assumption | apply IH; assumption].
Qed.

Lemma top_conditions rs :
  (forall r, In r rs ->
     risk_band r <> "critical" /\ risk_band r <> "high" /\
     has_expired_secret r = false /\ has_expired_cert r = false /\
     (owner_count r = 0 -> is_microsoft_first_party r = true) /\
     ~ In "stale" (map key (signals r)) /\ ~ In "never_signed_in" (map key (signals r))) <->
  existsb (fun r => (String.eqb (risk_band r) "critical" || String.eqb (risk_band r) "high")%bool) rs = false /\
  existsb (fun r => (has_expired_secret r || has_expired_cert r)%bool) rs = false /\
  existsb (fun r => (Z.eqb (owner_count r) 0 && negb (is_microsoft_first_party r))%bool) rs = false /\
  existsb (fun r => existsb (fun s => (String.eqb (key s) "stale"
                                       || String.eqb (key s) "never_signed_in")%bool)
                      (signals r)) rs = false.
Proof.
  rewrite !existsb_false_iff. split.
  - intros H. repeat split; intros r Hr; destruct (H r Hr) as (h1 & h2 & h3 & h4 & h5 & h6 & h7).
    + apply orb_false_iff. split; apply String.eqb_neq; assumption.
    + rewrite h3, h4. reflexivity.
    + destruct (Z.eqb_spec (owner_count r) 0) as [E|E]; [rewrite h5 by exact E|]; reflexivity.
    + apply existsb_false_iff. intros s Hs. apply orb_false_iff.
      split; apply String.eqb_neq; intros E; [apply h6 | apply h7]; rewrite <- E; apply in_map; exact Hs.
  - intros (H1 & H2 & H3 & H4) r Hr.
    specialize (H1 r Hr). specialize (H2 r Hr). specialize (H3 r Hr). specialize (H4 r Hr).
    apply orb_false_iff in H1 as [H1a H1b]. apply orb_false_iff in H2 as [H2a H2b].
    rewrite existsb_false_iff in H4.
    repeat split.
    + apply String.eqb_neq. exact H1a.
    + apply String.eqb_neq. exact H1b.
    + exact H2a.
    + exact H2b.
    + intros E. apply Z.eqb_eq in E. rewrite E in H3. destruct (is_microsoft_first_party r);
        [reflexivity | discriminate].
    + intros Hin. apply in_map_iff in Hin as [s [Hk Hs]]. specialize (H4 s Hs).
      rewrite Hk in H4. discriminate H4.
    + intros Hin. apply in_map_iff in Hin as [s [Hk Hs]]. specialize (H4 s Hs).
      rewrite Hk in H4. discriminate H4.
Qed.

Lemma crit_high_pos rs :
  (0 <? count_band "critical" rs + count_band "high" rs) =
  existsb (fun r => (String.eqb (risk_band r) "critical" || String.eqb (risk_band r) "high")%bool) rs.
Proof.
  rewrite count_pos_add by apply count_if_nonneg.
  unfold count_band. rewrite !count_if_pos, existsb_orb. reflexivity.
Qed.

End ReportFacts.

Import Py Analyzer Facts.

(** ** The claims *)

(** C7: the band classifier partitions the integers: [critical] exactly
    from 75, [high] on [50, 75), [medium] on [25, 50), [low] on (0, 25) and
    [clean] at 0 and below; with the boundary values 74, 75, 49, 50, 24,
    25, 0 and 1. *)
Theorem risk_band_partition (score : Z) :
  (_risk_band score = "critical" <-> 75 <= score) /\
  (_risk_band score = "high" <-> 50 <= score < 75) /\
  (_risk_band score = "medium" <-> 25 <= score < 50) /\
  (_risk_band score = "low" <-> 0 < score < 25) /\
  (_risk_band score = "clean" <-> score <= 0) /\
  map _risk_band [74; 75; 49; 50; 24; 25; 0; 1] =
    ["high"; "critical"; "medium"; "high"; "low"; "medium"; "clean"; "low"].
Proof.
  unfold _risk_band.
  destruct (Z.leb_spec 75 score), (Z.leb_spec 50 score), (Z.leb_spec 25 score),
    (Z.ltb_spec 0 score);
    repeat split; intros; first [reflexivity | discriminate | lia | exfalso; lia].
Qed.

(** C1: a disabled service principal with an empty owner list and
    nothing else (no credentials, no sign-in block) fires exactly
    [no_owners] (high, 20) and [disabled_sp] (medium, 10), not
    [no_assignments]; its score is 30, its band [medium], and its primary
    recommendation is the text for [no_owners]. *)
Theorem disabled_ownerless_app fi now sd :
  exists r,
    analyze_app fi now (PDict [("accountEnabled", PBool false); ("_owners", PList [])]) sd = Ok r /\
    signals r = [mkSignal "no_owners" "high" 20; mkSignal "disabled_sp" "medium" 10] /\
    ~ In "no_assignments" (map key (signals r)) /\
    risk_score r = 30 /\ risk_band r = "medium" /\
    primary_recommendation r = _recommendation_for_signal "no_owners" (account_enabled r).
Proof.
  eexists. split; [reflexivity|].
  cbn. split; [reflexivity|]. split; [intros [H|[H|[]]]; discriminate|].
  repeat split.
Qed.

(** C2: whenever [analyze_app] returns, every signal weighs at least 0,
    the score is the sum of the weights capped once at 100, and
    0 <= score <= 100. *)
Theorem risk_score_bounds fi now sp sd r :
  analyze_app fi now sp sd = Ok r ->
  Forall (fun s => 0 <= score_contribution s) (signals r) /\
  risk_score r = Z.min (sum_contributions (signals r)) 100 /\
  0 <= risk_score r <= 100.
Proof.
  intros H.
  assert (Hnn : Forall (fun s => 0 <= score_contribution s) (signals r)).
  { destruct (analyze_app_signals_within _ _ _ _ _ H) as [Hall _].
    apply Forall_forall. intros s Hs.
    eapply Forall_forall in Hall; [|exact Hs].
    exact (proj1 (Forall_forall _ _) all_signals_nonneg s Hall). }
  inv_app H. split; [exact Hnn|]. split; [exact Hscore|].
  pose proof (sum_contributions_nonneg _ Hnn). rewrite Hscore. lia.
Qed.

Lemma risk_score_bounds_witness :
  exists r,
    analyze_app (fun _ => IsoValueError) 0
      (PDict [("accountEnabled", PBool false); ("_owners", PList [])]) 90 = Ok r /\
    0 <= risk_score r <= 100.
Proof.
  eexists. split; [reflexivity|].
  apply (risk_score_bounds (fun _ => IsoValueError) 0
           (PDict [("accountEnabled", PBool false); ("_owners", PList [])]) 90).
  reflexivity.
Defined.

(** C4: an app whose owning organisation is a Microsoft tenant fires
    none of [no_owners], [no_assignments], [stale], [never_signed_in],
    [disabled_owner], [multi_tenant_app], and fires the
    [microsoft_first_party] marker, which weighs 0. *)
Theorem first_party_suppression fi now sp sd r o :
  py_get sp "appOwnerOrganizationId" PNone = Ok (PStr o) ->
  In o MICROSOFT_TENANT_IDS ->
  analyze_app fi now sp sd = Ok r ->
  is_microsoft_first_party r = true /\
  Forall (fun k => ~ In k (map key (signals r)))
    ["no_owners"; "no_assignments"; "stale"; "never_signed_in"; "disabled_owner";
     "multi_tenant_app"] /\
  In sig_microsoft_first_party (signals r) /\ score_contribution sig_microsoft_first_party = 0.
Proof.
  intros Ho Hin H.
  destruct (analyze_app_signals_within _ _ _ _ _ H) as [_ Hfps].
  inv_app H.
  rewrite Horg in Ho. injection Ho as ->. cbn [py_in_strset] in Hfpm.
  apply str_mem_In in Hin. rewrite Hin in Hfpm. injection Hfpm as Hfp.
  assert (Hr : is_microsoft_first_party r = true) by congruence.
  specialize (Hfps Hr). subst fp.
  split; [exact Hr|]. split; [|split; [|reflexivity]].
  - apply Forall_forall. intros k Hk Hkin.
    apply in_map_iff in Hkin as [s [<- Hs]].
    eapply Forall_forall in Hfps; [|exact Hs].
    exact (fp_signals_keys s Hfps Hk).
  - rewrite Hsig, !in_app_iff. do 13 right. left. left. reflexivity.
Qed.

Lemma first_party_suppression_witness :
  exists r,
    analyze_app (fun _ => IsoValueError) 0
      (PDict [("appOwnerOrganizationId", PStr "f8cdef31-a31e-4b4a-93e4-5f571e91255a");
              ("_owners", PList []); ("_signInActivity", PDict [])]) 90 = Ok r /\
    In sig_microsoft_first_party (signals r).
Proof.
  eexists. split; [reflexivity|].
  apply (first_party_suppression (fun _ => IsoValueError) 0
           (PDict [("appOwnerOrganizationId", PStr "f8cdef31-a31e-4b4a-93e4-5f571e91255a");
                   ("_owners", PList []); ("_signInActivity", PDict [])]) 90 _
           "f8cdef31-a31e-4b4a-93e4-5f571e91255a");
    [reflexivity | left; reflexivity | reflexivity].
Defined.

(** C10: when the only signal of an app is the [tool_artifact] marker,
    its primary recommendation is the generic fallback text, since the
    recommendation table has no entry for [tool_artifact]. *)
Theorem tool_artifact_fallback fi now sp sd r :
  analyze_app fi now sp sd = Ok r ->
  map key (signals r) = ["tool_artifact"] ->
  primary_recommendation r = "Review and remediate flagged issues.".
Proof.
  intros H Hk.
  destruct (analyze_app_signals_within _ _ _ _ _ H) as [Hall _].
  inv_app H. rewrite Hprim.
  destruct (signals r) as [|s [|s' l]]; try discriminate Hk.
  injection Hk as Hks.
  inversion Hall as [|? ? Hs]; subst.
  rewrite (all_signals_tool_artifact s Hs Hks). reflexivity.
Qed.

Lemma tool_artifact_fallback_witness :
  exists r,
    analyze_app (fun _ => IsoValueError) 0
      (PDict [("displayName", PStr "Enterprise-Zapp-Scan-01");
              ("_owners", PList [PDict []]); ("_appPermissions", PList [PDict []])]) 90 = Ok r /\
    map key (signals r) = ["tool_artifact"] /\
    primary_recommendation r = "Review and remediate flagged issues.".
Proof.
  eexists. split; [reflexivity|]. split; [reflexivity|].
  apply (tool_artifact_fallback (fun _ => IsoValueError) 0
           (PDict [("displayName", PStr "Enterprise-Zapp-Scan-01");
                   ("_owners", PList [PDict []]); ("_appPermissions", PList [PDict []])]) 90);
    reflexivity.
Defined.

(** C3: the three secret-expiry signals exclude one another, and so do
    the three certificate-expiry signals.  For a single password
    credential whose end date is [d] days away the secret keys are
    [expired_secret] when [d < 0], [near_expiry_secret] when
    [0 <= d <= 30], [expiry_warning_secret] when [30 < d <= 90] and none
    beyond; the same holds for a single key credential and the
    certificate keys. *)
Theorem expiry_tiering_disjoint fi now sp sd r :
  analyze_app fi now sp sd = Ok r ->
  (List.length (keys_in ["expired_secret"; "near_expiry_secret"; "expiry_warning_secret"]
                 (signals r)) <= 1)%nat /\
  (List.length (keys_in ["expired_cert"; "near_expiry_cert"; "expiry_warning_cert"]
                 (signals r)) <= 1)%nat /\
  (forall c t d,
     py_get sp "passwordCredentials" (PList []) = Ok (PList [c]) ->
     (exists e, py_get c "endDateTime" PNone = Ok e /\ _parse_dt fi e = Ok (Some t)) ->
     _days_until now (Some t) = Some d ->
     keys_in ["expired_secret"; "near_expiry_secret"; "expiry_warning_secret"] (signals r) =
       if d <? 0 then ["expired_secret"]
       else if d <=? 30 then ["near_expiry_secret"]
       else if d <=? 90 then ["expiry_warning_secret"] else []) /\
  (forall c t d,
     py_get sp "keyCredentials" (PList []) = Ok (PList [c]) ->
     (exists e, py_get c "endDateTime" PNone = Ok e /\ _parse_dt fi e = Ok (Some t)) ->
     _days_until now (Some t) = Some d ->
     keys_in ["expired_cert"; "near_expiry_cert"; "expiry_warning_cert"] (signals r) =
       if d <? 0 then ["expired_cert"]
       else if d <=? 30 then ["near_expiry_cert"]
       else if d <=? 90 then ["expiry_warning_cert"] else []).
Proof.
  intros H.
  destruct (expiry_keys_only _ _ _ _ _ H) as (pw & pwl & ts & kc & kcl & tc &
    Hpw & Hpwl & Hts & Hkc & Hkcl & Htc & Hkeys).
  assert (Hs : Forall (fun s => str_mem (key s)
                 ["expired_secret"; "near_expiry_secret"; "expiry_warning_secret"] = false)
                 non_expiry_signals)
    by (unfold non_expiry_signals; repeat (apply Forall_cons; [reflexivity|]); apply Forall_nil).
  assert (Hc : Forall (fun s => str_mem (key s)
                 ["expired_cert"; "near_expiry_cert"; "expiry_warning_cert"] = false)
                 non_expiry_signals)
    by (unfold non_expiry_signals; repeat (apply Forall_cons; [reflexivity|]); apply Forall_nil).
  rewrite (Hkeys _ Hs), (Hkeys _ Hc), !new_signals_step_expiry.
  split; [|split; [|split]].
  - destruct ts as [a b c], tc as [d e f]; cbn [t_expired t_near t_warning].
    destruct a, b, c, d, e, f; cbn; lia.
  - destruct ts as [a b c], tc as [d e f]; cbn [t_expired t_near t_warning].
    destruct a, b, c, d, e, f; cbn; lia.
  - intros c t d Hget [e [He Ht]] Hd.
    rewrite Hpw in Hget. injection Hget as ->. cbn in Hpwl. injection Hpwl as <-.
    rewrite (cred_tiers_single _ _ _ _ _ _ He Ht Hts), Hd.
    unfold tier_update, NEAR_EXPIRY_DAYS, NEAR_EXPIRY_WARN_DAYS.
    destruct tc as [x y z]; cbn [t_expired t_near t_warning no_tiers].
    destruct (d <? 0), (d <=? 30), (d <=? 90), x, y, z; reflexivity.
  - intros c t d Hget [e [He Ht]] Hd.
    rewrite Hkc in Hget. injection Hget as ->. cbn in Hkcl. injection Hkcl as <-.
    rewrite (cred_tiers_single _ _ _ _ _ _ He Ht Htc), Hd.
    unfold tier_update, NEAR_EXPIRY_DAYS, NEAR_EXPIRY_WARN_DAYS.
    destruct ts as [x y z]; cbn [t_expired t_near t_warning no_tiers].
    destruct (d <? 0), (d <=? 30), (d <=? 90), x, y, z; reflexivity.
Qed.

Lemma expiry_tiering_disjoint_witness :
  exists r,
    analyze_app (fun s => if String.eqb s "2030" then IsoOk (15 * DAY_US) else IsoValueError) 0
      (PDict [("passwordCredentials", PList [PDict [("endDateTime", PStr "2030")]])]) 90 = Ok r /\
    keys_in ["expired_secret"; "near_expiry_secret"; "expiry_warning_secret"] (signals r) =
      ["near_expiry_secret"].
Proof.
  eexists. split; [reflexivity|].
  pose proof (expiry_tiering_disjoint
    (fun s => if String.eqb s "2030" then IsoOk (15 * DAY_US) else IsoValueError) 0
    (PDict [("passwordCredentials", PList [PDict [("endDateTime", PStr "2030")]])]) 90 _
    eq_refl) as W.
  apply (proj1 (proj2 (proj2 W)) (PDict [("endDateTime", PStr "2030")]) (15 * DAY_US) 15);
    [reflexivity | eexists; split; reflexivity | reflexivity].
Defined.

(** C5: [analyze_ca_coverage] returns a summary of every policy, enforced
    or not; a policy is enforced exactly when its state is the string
    [enabled]; the ids of the summaries and of the coverage records are
    lower-cased; and an app is covered exactly when some enforced policy
    includes it (all apps, or its id listed) and does not exclude it, so
    exclusion wins over inclusion.  [str_lower] is the case mapping of
    [str.lower()], which is idempotent. *)
Theorem ca_coverage_rule str_lower
  (str_lower_idem : forall s, str_lower (str_lower s) = str_lower s)
  ca_policies apps covs sums :
  CaAnalyzer.analyze_ca_coverage str_lower ca_policies apps = Ok (covs, sums) ->
  CaAnalyzer._parse_policies str_lower ca_policies = Ok sums /\
  (exists ps, py_iter ca_policies = Ok ps /\ List.length sums = List.length ps) /\
  (forall p, CaAnalyzer.is_enforced p = true <-> CaAnalyzer.state p = PStr "enabled") /\
  (forall p, In p sums ->
     Forall (fun x => str_lower x = x)
       (CaAnalyzer.included_app_ids p ++ CaAnalyzer.excluded_app_ids p)) /\
  (forall c, In c covs ->
     str_lower (CaAnalyzer.app_id c) = CaAnalyzer.app_id c /\
     (CaAnalyzer.is_covered c = true <->
      exists p, In p sums /\ CaAnalyzer.is_enforced p = true /\
        (CaAnalyzer.includes_all_apps p = true \/
         In (CaAnalyzer.app_id c) (CaAnalyzer.included_app_ids p)) /\
        ~ In (CaAnalyzer.app_id c) (CaAnalyzer.excluded_app_ids p))).
Proof.
  unfold CaAnalyzer.analyze_ca_coverage. intros H. res_inv H.
  injection H as <- <-.
  unfold CaAnalyzer._parse_policies in E. res_inv E.
  split; [reflexivity|]. split; [exists x2; split; [reflexivity | eapply map_res_length; exact E]|].
  split.
  { intros p. unfold CaAnalyzer.is_enforced.
    destruct (CaAnalyzer.state p); cbn; split; try discriminate; try (intros H; injection H; discriminate).
    - intros H. apply String.eqb_eq in H. subst. reflexivity.
    - intros H. injection H as ->. apply String.eqb_refl. }
  split.
  { intros p Hp. destruct (map_res_in _ _ _ _ E Hp) as [q [_ Hq]].
    eapply parse_policy_lowercase; [exact str_lower_idem | exact Hq]. }
  intros c Hc. destruct (map_res_in _ _ _ _ E1 Hc) as [app [_ Happ]].
  unfold CaAnalyzer.app_coverage in Happ. res_inv Happ. injection Happ as <-.
  cbn [CaAnalyzer.app_id CaAnalyzer.is_covered].
  split; [eapply py_lower_lowercase; [exact str_lower_idem | exact E4]|].
  transitivity (CaAnalyzer.covering_of x4 (filter CaAnalyzer.is_enforced x) <> []).
  { destruct (CaAnalyzer.covering_of x4 (filter CaAnalyzer.is_enforced x)).
    - split; [discriminate | intros Hn; exfalso; apply Hn; reflexivity].
    - split; [intros _; discriminate | reflexivity]. }
  rewrite covering_of_nonempty_iff.
  split.
  - intros [p [Hp Hcov]]. apply filter_In in Hp as [Hp Hen].
    apply covers_b_iff in Hcov. exists p. tauto.
  - intros [p [Hp [Hen Hcov]]]. exists p.
    split; [apply filter_In; split; assumption | apply covers_b_iff; exact Hcov].
Qed.

Lemma ca_coverage_rule_witness :
  exists covs sums,
    CaAnalyzer.analyze_ca_coverage lower
      (PList [PDict [("displayName", PStr "Require MFA"); ("state", PStr "enabled");
                     ("conditions", PDict [("applications", PDict
                        [("includeApplications", PList [PStr "All"]);
                         ("excludeApplications", PList [PStr "APP-X"])])])]])
      (PList [PDict [("appId", PStr "app-x")]; PDict [("appId", PStr "App-Y")]])
    = Ok (covs, sums) /\
    map CaAnalyzer.is_covered covs = [false; true] /\
    (forall c, In c covs -> lower (CaAnalyzer.app_id c) = CaAnalyzer.app_id c).
Proof.
  do 2 eexists. split; [reflexivity|]. split; [reflexivity|].
  intros c Hc.
  refine (proj1 ((proj2 (proj2 (proj2 (proj2 (ca_coverage_rule lower lower_idem
    (PList [PDict [("displayName", PStr "Require MFA"); ("state", PStr "enabled");
                   ("conditions", PDict [("applications", PDict
                      [("includeApplications", PList [PStr "All"]);
                       ("excludeApplications", PList [PStr "APP-X"])])])]])
    (PList [PDict [("appId", PStr "app-x")]; PDict [("appId", PStr "App-Y")]])
    _ _ _))))) c Hc)).
  reflexivity.
Defined.

(** C8, counterexample: a mapping without an app list is not refused;
    it yields the empty result, the same as a snapshot with zero apps. *)
Lemma analyze_all_missing_apps_counterexample :
  analyze_all lower (fun _ => IsoValueError) 0 (PDict [("tenant", PDict [])]) 90 = Ok [] /\
  analyze_all lower (fun _ => IsoValueError) 0 (PDict [("apps", PList [])]) 90 = Ok [].
Proof. split; reflexivity. Qed.

(** C8, amended: [analyze_all] raises [AttributeError] when the input is
    not a mapping, and [TypeError] when its [apps] entry is not iterable:
    the values that [iter] refuses are exactly [None], the booleans and
    the integers.  A mapping with no [apps] key is read as a snapshot with
    zero apps and yields the empty list, exactly as [apps = []] does. *)
Theorem analyze_all_input_contract str_lower fi now sd :
  (forall raw, (forall kvs, raw <> PDict kvs) ->
     analyze_all str_lower fi now raw sd = Exc AttributeError) /\
  (forall v, (exists e, py_iter v = Exc e) <->
             v = PNone \/ (exists b, v = PBool b) \/ (exists z, v = PInt z)) /\
  (forall kvs v, assoc_lookup kvs "apps" = Some v ->
     (exists e, py_iter v = Exc e) ->
     analyze_all str_lower fi now (PDict kvs) sd = Exc TypeError) /\
  (forall kvs, assoc_lookup kvs "apps" = None ->
     analyze_all str_lower fi now (PDict kvs) sd = Ok []) /\
  analyze_all str_lower fi now (PDict [("apps", PList [])]) sd = Ok [].
Proof.
  split; [|split; [|split; [|split]]].
  - intros raw Hraw. destruct raw as [| | | | |kvs]; try reflexivity.
    exfalso. exact (Hraw kvs eq_refl).
  - intros v. destruct v as [|b|z|s|l|d]; cbn [py_iter]; split.
    + intros _. left. reflexivity.
    + intros _. eexists. reflexivity.
    + intros _. right. left. exists b. reflexivity.
    + intros _. eexists. reflexivity.
    + intros _. right. right. exists z. reflexivity.
    + intros _. eexists. reflexivity.
    + intros [e He]. discriminate He.
    + intros [H | [[b H] | [z H]]]; discriminate H.
    + intros [e He]. discriminate He.
    + intros [H | [[b H] | [z H]]]; discriminate H.
    + intros [e He]. discriminate He.
    + intros [H | [[b H] | [z H]]]; discriminate H.
  - intros kvs v Hk [e He]. unfold analyze_all. cbn [py_get]. rewrite Hk. cbn [bind].
    destruct v; cbn [py_iter] in He |- *; try discriminate He; reflexivity.
  - intros kvs Hk. unfold analyze_all. cbn [py_get]. rewrite Hk. reflexivity.
  - reflexivity.
Qed.

Lemma analyze_all_input_contract_witness :
  analyze_all lower (fun _ => IsoValueError) 0 (PList []) 90 = Exc AttributeError /\
  analyze_all lower (fun _ => IsoValueError) 0 (PDict [("apps", PNone)]) 90 = Exc TypeError /\
  analyze_all lower (fun _ => IsoValueError) 0 (PDict [("apps", PInt 3)]) 90 = Exc TypeError /\
  analyze_all lower (fun _ => IsoValueError) 0 (PDict [("apps", PBool true)]) 90 = Exc TypeError /\
  analyze_all lower (fun _ => IsoValueError) 0 (PDict []) 90 = Ok [].
Proof.
  destruct (analyze_all_input_contract lower (fun _ => IsoValueError) 0 90)
    as (H1 & Hit & H2 & H3 & _).
  split; [apply H1; intros kvs; discriminate|].
  split; [apply (H2 _ PNone); [reflexivity | apply Hit; left; reflexivity]|].
  split; [apply (H2 _ (PInt 3)); [reflexivity | apply Hit; right; right; exists 3; reflexivity]|].
  split; [apply (H2 _ (PBool true));
          [reflexivity | apply Hit; right; left; exists true; reflexivity]|].
  apply H3; reflexivity.
Defined.

(** C6: the list returned by [analyze_all] is a reordering of the
    per-app results, every display name is a string, and the list is
    sorted by descending risk score, ties broken by the display name
    lower-cased by [str.lower()] (the case mapping [str_lower]) in
    ascending code-point order; on the apps (10, Zebra),
    (10, apple), (50, Mid) the order is Mid, apple, Zebra. *)
Theorem analyze_all_sorted str_lower fi now raw sd rs :
  analyze_all str_lower fi now raw sd = Ok rs ->
  (exists apps sps results,
     py_get raw "apps" (PList []) = Ok apps /\ py_iter apps = Ok sps /\
     map_res (fun sp => analyze_app fi now sp sd) sps = Ok results /\
     Permutation rs results) /\
  Forall (fun r => exists s, display_name r = PStr s /\ name_key str_lower r = str_lower s) rs /\
  Sorted (fun r1 r2 => risk_score r2 < risk_score r1 \/
                       (risk_score r1 = risk_score r2 /\
                        string_leb (name_key str_lower r1) (name_key str_lower r2) = true)) rs.
Proof.
  unfold analyze_all. intros H. res_inv H. injection H as <-.
  destruct (keyed_spec _ _ _ E2) as [Hm Hf].
  pose proof (sort_keyed_perm x2) as Hp.
  assert (Hf' : forall kr, In kr (sort_keyed x2) ->
            fst kr = (- risk_score (snd kr), name_key str_lower (snd kr)) /\
            exists s, display_name (snd kr) = PStr s /\ name_key str_lower (snd kr) = str_lower s).
  { intros kr Hin. eapply Forall_forall in Hf; [exact Hf|].
    eapply Permutation_in; [exact Hp | exact Hin]. }
  split; [|split].
  - exists x, x0, x1. repeat split; try eassumption.
    rewrite <- Hm. apply Permutation_map. exact Hp.
  - apply Forall_forall. intros r Hr. apply in_map_iff in Hr as [kr [<- Hin]].
    exact (proj2 (Hf' kr Hin)).
  - apply Sorted_map_in with (R := keyed_le); [|apply sort_keyed_sorted].
    intros a b Ha Hb Hab.
    destruct (Hf' a Ha) as [Ka _], (Hf' b Hb) as [Kb _].
    unfold keyed_le, key_leb in Hab. rewrite Ka, Kb in Hab. cbn [fst snd] in Hab.
    apply orb_true_iff in Hab as [Hlt | Heq].
    + left. apply Z.ltb_lt in Hlt. lia.
    + right. apply andb_true_iff in Heq as [Heq Hs]. apply Z.eqb_eq in Heq.
      split; [lia | exact Hs].
Qed.

Lemma analyze_all_sorted_witness :
  exists rs,
    analyze_all lower (fun _ => IsoValueError) 0
      (PDict [("apps", PList [PDict [("displayName", PStr "Zebra"); ("_owners", PList [PDict []])];
                             PDict [("displayName", PStr "apple"); ("_owners", PList [PDict []])];
                             PDict [("displayName", PStr "Mid"); ("replyUrls", PList [PStr "*"])]])])
      90 = Ok rs /\
    map (fun r => (display_name r, risk_score r)) rs =
      [(PStr "Mid", 50); (PStr "apple", 10); (PStr "Zebra", 10)] /\
    Sorted (fun r1 r2 => risk_score r2 < risk_score r1 \/
                         (risk_score r1 = risk_score r2 /\
                          string_leb (name_key lower r1) (name_key lower r2) = true)) rs.
Proof.
  eexists. split; [reflexivity|]. split; [reflexivity|].
  apply (analyze_all_sorted lower (fun _ => IsoValueError) 0
    (PDict [("apps", PList [PDict [("displayName", PStr "Zebra"); ("_owners", PList [PDict []])];
                           PDict [("displayName", PStr "apple"); ("_owners", PList [PDict []])];
                           PDict [("displayName", PStr "Mid"); ("replyUrls", PList [PStr "*"])]])])
    90).
  reflexivity.
Defined.





(** ** Further properties of the code *)

Import AppFacts Report ReportFacts.
Local Open Scope list_scope.

(** X1: whenever [analyze_app] returns, no signal key occurs twice in its
    signal list: each rule contributes at most one signal, and rules that
    share a key (the two [excessive_delegated_permissions] and the two
    [multi_tenant_app] variants) are alternatives of one branch. *)
Theorem analyze_app_signal_keys_distinct fi now sp sd r :
  analyze_app fi now sp sd = Ok r -> NoDup (map key (signals r)).
Proof.
  intros H. flags_app H. rewrite Hsig. eapply chunk_nodup. chunks.
Qed.

Lemma analyze_app_signal_keys_distinct_witness :
  exists r, analyze_app (fun _ => IsoOk 0) (200 * DAY_US)
    (PDict [("displayName", PStr "Legacy CRM"); ("_owners", PList []);
              ("_signInActivity", PDict [("lastSignInActivity",
                 PDict [("lastSignInDateTime", PStr "2024-01-01T00:00:00Z")])]);
              ("passwordCredentials", PList [PDict [("endDateTime", PStr "2024-03-01T00:00:00Z")]])]) 90 = Ok r /\
  (NoDup (map key (signals r))).
Proof.
  eexists. split; [reflexivity|].
  refine (analyze_app_signal_keys_distinct (fun _ => IsoOk 0) (200 * DAY_US)
    (PDict [("displayName", PStr "Legacy CRM"); ("_owners", PList []);
              ("_signInActivity", PDict [("lastSignInActivity",
                 PDict [("lastSignInDateTime", PStr "2024-01-01T00:00:00Z")])]);
              ("passwordCredentials", PList [PDict [("endDateTime", PStr "2024-03-01T00:00:00Z")]])]) 90 _ _).
  reflexivity.
Defined.

(** X2: the [excessive_delegated_permissions] signal is present exactly when
    the app holds excessive delegated scopes, and it is the high-severity
    variant exactly when the app is also stale or has never signed in. *)
Theorem analyze_app_excessive_delegated fi now sp sd r :
  analyze_app fi now sp sd = Ok r ->
  sigs_with "excessive_delegated_permissions" (signals r) =
    if has_excessive_delegated r then
      if (has_key "stale" (signals r) || has_key "never_signed_in" (signals r))%bool
      then [sig_excessive_delegated_stale] else [sig_excessive_delegated]
    else [].
Proof.
  intros H. flags_app H. rewrite Hsig. sig_norm Hn2 Hn3.
  rewrite Hst, stale_signal_has_key. key_norm Hn2 Hn3. reflexivity.
Qed.

Lemma analyze_app_excessive_delegated_witness :
  exists r, analyze_app (fun _ => IsoOk 0) (200 * DAY_US)
    (PDict [("displayName", PStr "Legacy CRM"); ("_owners", PList []);
              ("_signInActivity", PDict [("lastSignInActivity",
                 PDict [("lastSignInDateTime", PStr "2024-01-01T00:00:00Z")])]);
              ("passwordCredentials", PList [PDict [("endDateTime", PStr "2024-03-01T00:00:00Z")]])]) 90 = Ok r /\
  (sigs_with "excessive_delegated_permissions" (signals r) =
    if has_excessive_delegated r then
      if (has_key "stale" (signals r) || has_key "never_signed_in" (signals r))%bool
      then [sig_excessive_delegated_stale] else [sig_excessive_delegated]
    else []).
Proof.
  eexists. split; [reflexivity|].
  refine (analyze_app_excessive_delegated (fun _ => IsoOk 0) (200 * DAY_US)
    (PDict [("displayName", PStr "Legacy CRM"); ("_owners", PList []);
              ("_signInActivity", PDict [("lastSignInActivity",
                 PDict [("lastSignInDateTime", PStr "2024-01-01T00:00:00Z")])]);
              ("passwordCredentials", PList [PDict [("endDateTime", PStr "2024-03-01T00:00:00Z")]])]) 90 _ _).
  reflexivity.
Defined.

(** X3: the [multi_tenant_app] signal is present exactly when the app is
    multi-tenant and not a Microsoft first-party app; it is the
    privileged variant exactly when the app also holds a high-privilege
    application permission or excessive delegated scopes. *)
Theorem analyze_app_multi_tenant fi now sp sd r :
  analyze_app fi now sp sd = Ok r ->
  sigs_with "multi_tenant_app" (signals r) =
    if (is_multi_tenant r && negb (is_microsoft_first_party r))%bool then
      if (has_high_privilege r || has_excessive_delegated r)%bool
      then [sig_multi_tenant_privileged] else [sig_multi_tenant]
    else [].
Proof.
  intros H. flags_app H. rewrite Rfp, Hsig. sig_norm Hn2 Hn3. reflexivity.
Qed.

Lemma analyze_app_multi_tenant_witness :
  exists r, analyze_app (fun _ => IsoOk 0) (200 * DAY_US)
    (PDict [("displayName", PStr "Legacy CRM"); ("_owners", PList []);
              ("_signInActivity", PDict [("lastSignInActivity",
                 PDict [("lastSignInDateTime", PStr "2024-01-01T00:00:00Z")])]);
              ("passwordCredentials", PList [PDict [("endDateTime", PStr "2024-03-01T00:00:00Z")]])]) 90 = Ok r /\
  (sigs_with "multi_tenant_app" (signals r) =
    if (is_multi_tenant r && negb (is_microsoft_first_party r))%bool then
      if (has_high_privilege r || has_excessive_delegated r)%bool
      then [sig_multi_tenant_privileged] else [sig_multi_tenant]
    else []).
Proof.
  eexists. split; [reflexivity|].
  refine (analyze_app_multi_tenant (fun _ => IsoOk 0) (200 * DAY_US)
    (PDict [("displayName", PStr "Legacy CRM"); ("_owners", PList []);
              ("_signInActivity", PDict [("lastSignInActivity",
                 PDict [("lastSignInDateTime", PStr "2024-01-01T00:00:00Z")])]);
              ("passwordCredentials", PList [PDict [("endDateTime", PStr "2024-03-01T00:00:00Z")]])]) 90 _ _).
  reflexivity.
Defined.

(** X4: the signals [no_reply_urls], [wildcard_redirect_uri],
    [mixed_credential_types] and [implicit_grant_enabled] fire exactly when
    the corresponding flags of the returned record are set. *)
Theorem analyze_app_flag_signals fi now sp sd r :
  analyze_app fi now sp sd = Ok r ->
  has_key "no_reply_urls" (signals r) = has_no_reply_urls r /\
  has_key "wildcard_redirect_uri" (signals r) = has_wildcard_redirect r /\
  has_key "mixed_credential_types" (signals r) = has_mixed_credentials r /\
  has_key "implicit_grant_enabled" (signals r) = truthy (has_implicit_grant r).
Proof.
  intros H. flags_app H. rewrite Hsig.
  repeat split; key_norm Hn2 Hn3; reflexivity.
Qed.

Lemma analyze_app_flag_signals_witness :
  exists r, analyze_app (fun _ => IsoOk 0) (200 * DAY_US)
    (PDict [("displayName", PStr "Legacy CRM"); ("_owners", PList []);
              ("_signInActivity", PDict [("lastSignInActivity",
                 PDict [("lastSignInDateTime", PStr "2024-01-01T00:00:00Z")])]);
              ("passwordCredentials", PList [PDict [("endDateTime", PStr "2024-03-01T00:00:00Z")]])]) 90 = Ok r /\
  (has_key "no_reply_urls" (signals r) = has_no_reply_urls r /\
  has_key "wildcard_redirect_uri" (signals r) = has_wildcard_redirect r /\
  has_key "mixed_credential_types" (signals r) = has_mixed_credentials r /\
  has_key "implicit_grant_enabled" (signals r) = truthy (has_implicit_grant r)).
Proof.
  eexists. split; [reflexivity|].
  refine (analyze_app_flag_signals (fun _ => IsoOk 0) (200 * DAY_US)
    (PDict [("displayName", PStr "Legacy CRM"); ("_owners", PList []);
              ("_signInActivity", PDict [("lastSignInActivity",
                 PDict [("lastSignInDateTime", PStr "2024-01-01T00:00:00Z")])]);
              ("passwordCredentials", PList [PDict [("endDateTime", PStr "2024-03-01T00:00:00Z")]])]) 90 _ _).
  reflexivity.
Defined.

(** X5: the six expiry signals agree with the record's expiry flags: an
    expired key fires exactly when its flag is set, a near-expiry key when
    its flag is set and no expired one is, and a warning key when its flag
    is set and neither of the nearer tiers is. *)
Theorem analyze_app_expiry_signals fi now sp sd r :
  analyze_app fi now sp sd = Ok r ->
  has_key "expired_secret" (signals r) = has_expired_secret r /\
  has_key "expired_cert" (signals r) = has_expired_cert r /\
  has_key "near_expiry_secret" (signals r) =
    (has_near_expiry_secret r && negb (has_expired_secret r))%bool /\
  has_key "near_expiry_cert" (signals r) =
    (has_near_expiry_cert r && negb (has_expired_cert r))%bool /\
  has_key "expiry_warning_secret" (signals r) =
    (has_expiry_warning_secret r && negb (has_expired_secret r)
     && negb (has_near_expiry_secret r))%bool /\
  has_key "expiry_warning_cert" (signals r) =
    (has_expiry_warning_cert r && negb (has_expired_cert r)
     && negb (has_near_expiry_cert r))%bool.
Proof.
  intros H. flags_app H. rewrite Rexs, Rnears, Rwarns, Rexc, Rnearc, Rwarnc, Hsig.
  repeat split; key_norm Hn2 Hn3; reflexivity.
Qed.

Lemma analyze_app_expiry_signals_witness :
  exists r, analyze_app (fun _ => IsoOk 0) (200 * DAY_US)
    (PDict [("displayName", PStr "Legacy CRM"); ("_owners", PList []);
              ("_signInActivity", PDict [("lastSignInActivity",
                 PDict [("lastSignInDateTime", PStr "2024-01-01T00:00:00Z")])]);
              ("passwordCredentials", PList [PDict [("endDateTime", PStr "2024-03-01T00:00:00Z")]])]) 90 = Ok r /\
  (has_key "expired_secret" (signals r) = has_expired_secret r /\
  has_key "expired_cert" (signals r) = has_expired_cert r /\
  has_key "near_expiry_secret" (signals r) =
    (has_near_expiry_secret r && negb (has_expired_secret r))%bool /\
  has_key "near_expiry_cert" (signals r) =
    (has_near_expiry_cert r && negb (has_expired_cert r))%bool /\
  has_key "expiry_warning_secret" (signals r) =
    (has_expiry_warning_secret r && negb (has_expired_secret r)
     && negb (has_near_expiry_secret r))%bool /\
  has_key "expiry_warning_cert" (signals r) =
    (has_expiry_warning_cert r && negb (has_expired_cert r)
     && negb (has_near_expiry_cert r))%bool).
Proof.
  eexists. split; [reflexivity|].
  refine (analyze_app_expiry_signals (fun _ => IsoOk 0) (200 * DAY_US)
    (PDict [("displayName", PStr "Legacy CRM"); ("_owners", PList []);
              ("_signInActivity", PDict [("lastSignInActivity",
                 PDict [("lastSignInDateTime", PStr "2024-01-01T00:00:00Z")])]);
              ("passwordCredentials", PList [PDict [("endDateTime", PStr "2024-03-01T00:00:00Z")]])]) 90 _ _).
  reflexivity.
Defined.

(** X6: [high_privilege_stale] fires exactly when the app holds a
    high-privilege application permission and carries a [stale] or
    [never_signed_in] signal. *)
Theorem analyze_app_high_privilege_stale fi now sp sd r :
  analyze_app fi now sp sd = Ok r ->
  (In "high_privilege_stale" (map key (signals r)) <->
   has_high_privilege r = true /\
   (In "stale" (map key (signals r)) \/ In "never_signed_in" (map key (signals r)))).
Proof.
  intros H. rewrite <- !has_key_In, (key_hp_stale _ _ _ _ _ H), andb_true_iff, orb_true_iff.
  reflexivity.
Qed.

Lemma analyze_app_high_privilege_stale_witness :
  exists r, analyze_app (fun _ => IsoOk 0) (200 * DAY_US)
    (PDict [("displayName", PStr "Legacy CRM"); ("_owners", PList []);
              ("_signInActivity", PDict [("lastSignInActivity",
                 PDict [("lastSignInDateTime", PStr "2024-01-01T00:00:00Z")])]);
              ("passwordCredentials", PList [PDict [("endDateTime", PStr "2024-03-01T00:00:00Z")]])]) 90 = Ok r /\
  ((In "high_privilege_stale" (map key (signals r)) <->
   has_high_privilege r = true /\
   (In "stale" (map key (signals r)) \/ In "never_signed_in" (map key (signals r))))).
Proof.
  eexists. split; [reflexivity|].
  refine (analyze_app_high_privilege_stale (fun _ => IsoOk 0) (200 * DAY_US)
    (PDict [("displayName", PStr "Legacy CRM"); ("_owners", PList []);
              ("_signInActivity", PDict [("lastSignInActivity",
                 PDict [("lastSignInDateTime", PStr "2024-01-01T00:00:00Z")])]);
              ("passwordCredentials", PList [PDict [("endDateTime", PStr "2024-03-01T00:00:00Z")]])]) 90 _ _).
  reflexivity.
Defined.

(** X7: an app never carries both [never_signed_in] and [stale]. *)
Theorem analyze_app_sign_in_exclusive fi now sp sd r :
  analyze_app fi now sp sd = Ok r ->
  ~ (In "never_signed_in" (map key (signals r)) /\ In "stale" (map key (signals r))).
Proof.
  intros H [Hn Hs].
  destruct (sign_in_signal_keys fi now sp sd r H) as (si & ld & _ & _ & Hdays & Hnev & Hst).
  apply Hnev in Hn as (_ & Hld & _). apply Hst in Hs as (_ & d & Hd & _).
  rewrite Hdays, Hld in Hd. discriminate Hd.
Qed.

Lemma analyze_app_sign_in_exclusive_witness :
  exists r, analyze_app (fun _ => IsoOk 0) (200 * DAY_US)
    (PDict [("displayName", PStr "Legacy CRM"); ("_owners", PList []);
              ("_signInActivity", PDict [("lastSignInActivity",
                 PDict [("lastSignInDateTime", PStr "2024-01-01T00:00:00Z")])]);
              ("passwordCredentials", PList [PDict [("endDateTime", PStr "2024-03-01T00:00:00Z")]])]) 90 = Ok r /\
  (~ (In "never_signed_in" (map key (signals r)) /\ In "stale" (map key (signals r)))).
Proof.
  eexists. split; [reflexivity|].
  refine (analyze_app_sign_in_exclusive (fun _ => IsoOk 0) (200 * DAY_US)
    (PDict [("displayName", PStr "Legacy CRM"); ("_owners", PList []);
              ("_signInActivity", PDict [("lastSignInActivity",
                 PDict [("lastSignInDateTime", PStr "2024-01-01T00:00:00Z")])]);
              ("passwordCredentials", PList [PDict [("endDateTime", PStr "2024-03-01T00:00:00Z")]])]) 90 _ _).
  reflexivity.
Defined.

(** X8: when the recorded last sign-in parses to the instant [t], the
    days since sign-in are the whole days elapsed between [t] and the
    clock, and [stale] fires exactly when the app is not first-party and at
    least [stale_days + 1] full days have elapsed. *)
Theorem analyze_app_stale_threshold fi now sp sd r t :
  analyze_app fi now sp sd = Ok r ->
  _parse_dt fi (last_sign_in r) = Ok (Some t) ->
  days_since_sign_in r = Some ((now - t) / DAY_US) /\
  (In "stale" (map key (signals r)) <->
   is_microsoft_first_party r = false /\ t + (sd + 1) * DAY_US <= now).
Proof.
  intros H Ht.
  destruct (sign_in_signal_keys fi now sp sd r H) as (si & ld & _ & Hld & Hdays & _ & Hst).
  rewrite Ht in Hld. injection Hld as <-. cbn [_days_since] in Hdays.
  split; [exact Hdays|]. rewrite Hst, Hdays.
  pose proof (div_day_bounds (now - t)) as Hb. unfold DAY_US in *.
  split.
  - intros [Hfp [d [Hd Hlt]]]. injection Hd as <-. split; [exact Hfp | lia].
  - intros [Hfp Hle]. split; [exact Hfp|]. eexists. split; [reflexivity | lia].
Qed.

Lemma analyze_app_stale_threshold_witness :
  exists r, analyze_app (fun _ => IsoOk 0) (200 * DAY_US)
    (PDict [("displayName", PStr "Legacy CRM"); ("_owners", PList []);
              ("_signInActivity", PDict [("lastSignInActivity",
                 PDict [("lastSignInDateTime", PStr "2024-01-01T00:00:00Z")])]);
              ("passwordCredentials", PList [PDict [("endDateTime", PStr "2024-03-01T00:00:00Z")]])]) 90 = Ok r /\
  _parse_dt (fun _ => IsoOk 0) (last_sign_in r) = Ok (Some 0) /\
  (days_since_sign_in r = Some (((200 * DAY_US) - 0) / DAY_US) /\
  (In "stale" (map key (signals r)) <->
   is_microsoft_first_party r = false /\ 0 + (90 + 1) * DAY_US <= (200 * DAY_US))).
Proof.
  eexists. split; [reflexivity|]. split; [reflexivity|].
  refine (analyze_app_stale_threshold (fun _ => IsoOk 0) (200 * DAY_US)
    (PDict [("displayName", PStr "Legacy CRM"); ("_owners", PList []);
              ("_signInActivity", PDict [("lastSignInActivity",
                 PDict [("lastSignInDateTime", PStr "2024-01-01T00:00:00Z")])]);
              ("passwordCredentials", PList [PDict [("endDateTime", PStr "2024-03-01T00:00:00Z")]])]) 90 _ 0 _ _); reflexivity.
Defined.

(** X9: the expiry flags of the returned record, read off the instants at
    which the credentials end: a secret (certificate) flag is expired when
    some password (key) credential ends before the clock, near when one
    ends within 31 days from the clock, and warning when one ends between
    31 and 91 days from it (whole days, as [timedelta.days] floors). *)
Theorem analyze_app_expiry_windows fi now sp sd r :
  analyze_app fi now sp sd = Ok r ->
  exists pw pwl pends kc kcl kends,
    py_get sp "passwordCredentials" (PList []) = Ok pw /\ py_iter pw = Ok pwl /\
    Forall2 (end_instant fi) pwl pends /\
    py_get sp "keyCredentials" (PList []) = Ok kc /\ py_iter kc = Ok kcl /\
    Forall2 (end_instant fi) kcl kends /\
    has_expired_secret r = existsb (expired_at now) pends /\
    has_near_expiry_secret r = existsb (near_at now) pends /\
    has_expiry_warning_secret r = existsb (warning_at now) pends /\
    has_expired_cert r = existsb (expired_at now) kends /\
    has_near_expiry_cert r = existsb (near_at now) kends /\
    has_expiry_warning_cert r = existsb (warning_at now) kends.
Proof.
  intros H. flags_app H.
  destruct (cred_tiers_windows _ _ _ _ _ Hts) as (pends & Hp & Pe & Pn & Pw).
  destruct (cred_tiers_windows _ _ _ _ _ Htc) as (kends & Hk & Ke & Kn & Kw).
  exists pw, pwl, pends, kc, kcl, kends.
  rewrite Rexs, Rnears, Rwarns, Rexc, Rnearc, Rwarnc, Pe, Pn, Pw, Ke, Kn, Kw.
  repeat split; assumption.
Qed.

Lemma analyze_app_expiry_windows_witness :
  exists r, analyze_app (fun _ => IsoOk 0) (200 * DAY_US)
    (PDict [("displayName", PStr "Legacy CRM"); ("_owners", PList []);
              ("_signInActivity", PDict [("lastSignInActivity",
                 PDict [("lastSignInDateTime", PStr "2024-01-01T00:00:00Z")])]);
              ("passwordCredentials", PList [PDict [("endDateTime", PStr "2024-03-01T00:00:00Z")]])]) 90 = Ok r /\
  (exists pw pwl pends kc kcl kends,
    py_get (PDict [("displayName", PStr "Legacy CRM"); ("_owners", PList []);
              ("_signInActivity", PDict [("lastSignInActivity",
                 PDict [("lastSignInDateTime", PStr "2024-01-01T00:00:00Z")])]);
              ("passwordCredentials", PList [PDict [("endDateTime", PStr "2024-03-01T00:00:00Z")]])]) "passwordCredentials" (PList []) = Ok pw /\ py_iter pw = Ok pwl /\
    Forall2 (end_instant (fun _ => IsoOk 0)) pwl pends /\
    py_get (PDict [("displayName", PStr "Legacy CRM"); ("_owners", PList []);
              ("_signInActivity", PDict [("lastSignInActivity",
                 PDict [("lastSignInDateTime", PStr "2024-01-01T00:00:00Z")])]);
              ("passwordCredentials", PList [PDict [("endDateTime", PStr "2024-03-01T00:00:00Z")]])]) "keyCredentials" (PList []) = Ok kc /\ py_iter kc = Ok kcl /\
    Forall2 (end_instant (fun _ => IsoOk 0)) kcl kends /\
    has_expired_secret r = existsb (expired_at (200 * DAY_US)) pends /\
    has_near_expiry_secret r = existsb (near_at (200 * DAY_US)) pends /\
    has_expiry_warning_secret r = existsb (warning_at (200 * DAY_US)) pends /\
    has_expired_cert r = existsb (expired_at (200 * DAY_US)) kends /\
    has_near_expiry_cert r = existsb (near_at (200 * DAY_US)) kends /\
    has_expiry_warning_cert r = existsb (warning_at (200 * DAY_US)) kends).
Proof.
  eexists. split; [reflexivity|].
  refine (analyze_app_expiry_windows (fun _ => IsoOk 0) (200 * DAY_US)
    (PDict [("displayName", PStr "Legacy CRM"); ("_owners", PList []);
              ("_signInActivity", PDict [("lastSignInActivity",
                 PDict [("lastSignInDateTime", PStr "2024-01-01T00:00:00Z")])]);
              ("passwordCredentials", PList [PDict [("endDateTime", PStr "2024-03-01T00:00:00Z")]])]) 90 _ _).
  reflexivity.
Defined.

(** X10: the primary recommendation is never the severity-scan fallback
    text, and it is the no-issues text exactly when no signal fired. *)
Theorem analyze_app_primary_recommendation fi now sp sd r :
  analyze_app fi now sp sd = Ok r ->
  primary_recommendation r <> "Review flagged signals and remediate as appropriate." /\
  (primary_recommendation r = "No issues detected. Periodic review recommended." <->
   signals r = []).
Proof.
  intros H. pose proof (proj1 (analyze_app_signals_within _ _ _ _ _ H)) as Hall.
  inv_app H. rewrite Hprim. clear Hsig.
  pose proof (primary_rec_values _ (account_enabled r) Hall) as Hv.
  destruct (signals r) as [|s0 rest].
  - rewrite Hv. split; [discriminate | split; reflexivity].
  - unfold recommendation_texts, recs, ms_only_text in Hv. cbn [map snd app] in Hv.
    split; [|split; [|discriminate]];
      intros He; rewrite He in Hv; cbn [In] in Hv;
      repeat (destruct Hv as [Hv | Hv]; [discriminate Hv|]); destruct Hv.
Qed.

Lemma analyze_app_primary_recommendation_witness :
  exists r, analyze_app (fun _ => IsoOk 0) (200 * DAY_US)
    (PDict [("displayName", PStr "Legacy CRM"); ("_owners", PList []);
              ("_signInActivity", PDict [("lastSignInActivity",
                 PDict [("lastSignInDateTime", PStr "2024-01-01T00:00:00Z")])]);
              ("passwordCredentials", PList [PDict [("endDateTime", PStr "2024-03-01T00:00:00Z")]])]) 90 = Ok r /\
  (primary_recommendation r <> "Review flagged signals and remediate as appropriate." /\
  (primary_recommendation r = "No issues detected. Periodic review recommended." <->
   signals r = [])).
Proof.
  eexists. split; [reflexivity|].
  refine (analyze_app_primary_recommendation (fun _ => IsoOk 0) (200 * DAY_US)
    (PDict [("displayName", PStr "Legacy CRM"); ("_owners", PList []);
              ("_signInActivity", PDict [("lastSignInActivity",
                 PDict [("lastSignInDateTime", PStr "2024-01-01T00:00:00Z")])]);
              ("passwordCredentials", PList [PDict [("endDateTime", PStr "2024-03-01T00:00:00Z")]])]) 90 _ _).
  reflexivity.
Defined.

(** X11: [band_counts] maps every band that is one of the five names or
    the band of some result to the number of results in that band, maps
    nothing else, and its counts add up to the number of results. *)
Theorem band_counts_spec rs b :
  dict_get (band_counts rs) b =
    (if existsb (String.eqb b) (band_names ++ map risk_band rs)
     then Some (count_band b rs) else None) /\
  dict_sum (band_counts rs) = Z.of_nat (List.length rs).
Proof.
  split; [apply band_counts_get|]. unfold band_counts. rewrite fold_band_sum. reflexivity.
Qed.

(** X12: for the results of [analyze_all], [band_counts] has exactly the
    five bands as keys, in the order critical, high, medium, low, clean. *)
Theorem band_counts_analyzed_keys str_lower fi now raw sd rs :
  analyze_all str_lower fi now raw sd = Ok rs -> map fst (band_counts rs) = band_names.
Proof.
  intros H. unfold band_counts. rewrite fold_band_keys; [reflexivity|].
  intros r Hr. rewrite (analyze_all_bands _ _ _ _ _ _ H r Hr). cbn [map fst].
  apply risk_band_in_names.
Qed.

Lemma band_counts_analyzed_keys_witness :
  exists rs, analyze_all lower (fun _ => IsoOk 0) (200 * DAY_US)
    (PDict [("apps", PList [(PDict [("displayName", PStr "Legacy CRM"); ("_owners", PList []);
              ("_signInActivity", PDict [("lastSignInActivity",
                 PDict [("lastSignInDateTime", PStr "2024-01-01T00:00:00Z")])]);
              ("passwordCredentials", PList [PDict [("endDateTime", PStr "2024-03-01T00:00:00Z")]])])])]) 90 = Ok rs /\
  (map fst (band_counts rs) = band_names).
Proof.
  eexists. split; [reflexivity|].
  refine (band_counts_analyzed_keys lower (fun _ => IsoOk 0) (200 * DAY_US)
    (PDict [("apps", PList [(PDict [("displayName", PStr "Legacy CRM"); ("_owners", PList []);
              ("_signInActivity", PDict [("lastSignInActivity",
                 PDict [("lastSignInDateTime", PStr "2024-01-01T00:00:00Z")])]);
              ("passwordCredentials", PList [PDict [("endDateTime", PStr "2024-03-01T00:00:00Z")]])])])]) 90 _ _).
  reflexivity.
Defined.

(** X13: the exit code computed from [band_counts] of a result list is 3 when
    some result is critical, else 2 when some is high, else 1 when some is
    medium, else 0; the lookups never raise. *)
Theorem exit_code_from_bands rs :
  exit_code (band_counts rs) =
  Some (if existsb (fun r => String.eqb (risk_band r) "critical") rs then 3
        else if existsb (fun r => String.eqb (risk_band r) "high") rs then 2
        else if existsb (fun r => String.eqb (risk_band r) "medium") rs then 1
        else 0).
Proof.
  unfold exit_code.
  rewrite !band_counts_known by (cbn; tauto). unfold count_band. rewrite !count_if_pos.
  destruct (existsb _ rs); [reflexivity|]. destruct (existsb _ rs); [reflexivity|].
  destruct (existsb _ rs); reflexivity.
Qed.

(** X14: on the results of [analyze_all], the band filter of the command
    line keeps every app for [all] and [clean], and keeps exactly the apps
    scoring at least 1, 25, 50 or 75 for [low], [medium], [high] or
    [critical], in their order; any other band name raises ValueError. *)
Theorem filter_by_band_analyzed str_lower fi now raw sd rs :
  analyze_all str_lower fi now raw sd = Ok rs ->
  filter_by_band "all" rs = Some rs /\
  filter_by_band "clean" rs = Some rs /\
  (forall b t, In (b, t) [("low", 1); ("medium", 25); ("high", 50); ("critical", 75)] ->
     filter_by_band b rs = Some (filter (fun r => t <=? risk_score r) rs)) /\
  (forall b, ~ In b ("all" :: band_order) -> filter_by_band b rs = None).
Proof.
  intros H. pose proof (analyze_all_bands _ _ _ _ _ _ H) as Hb.
  split; [reflexivity|]. split.
  { unfold filter_by_band. cbn [negb String.eqb Ascii.eqb Bool.eqb list_index band_order].
    rewrite (filter_min_idx_spec 0 (fun _ => true)); [rewrite filter_true; reflexivity|].
    intros r Hr. rewrite (Hb r Hr), band_index. eexists; split; reflexivity. }
  split.
  { intros b t Hbt. assert (Hm : exists m, list_index band_order b = Some m /\
        In (m, t) [(1%nat, 1); (2%nat, 25); (3%nat, 50); (4%nat, 75)] /\ b <> "all").
    { cbn in Hbt. repeat destruct Hbt as [Hbt|Hbt]; try contradiction; injection Hbt as <- <-;
        eexists; (split; [reflexivity | split; [cbn; tauto | discriminate]]). }
    destruct Hm as [m [Hi [Hmt Hne]]]. unfold filter_by_band.
    replace (String.eqb b "all") with false by (symmetry; apply String.eqb_neq; exact Hne).
    cbn [negb]. rewrite Hi. apply filter_min_idx_spec.
    intros r Hr. rewrite (Hb r Hr), band_index. eexists; split; [reflexivity|].
    apply band_rank_threshold. exact Hmt. }
  intros b Hnot. unfold filter_by_band.
  replace (String.eqb b "all") with false
    by (symmetry; apply String.eqb_neq; intros ->; apply Hnot; left; reflexivity).
  cbn [negb]. rewrite list_index_none; [reflexivity|]. intros Hin; apply Hnot; right; exact Hin.
Qed.

Lemma filter_by_band_analyzed_witness :
  exists rs, analyze_all lower (fun _ => IsoOk 0) (200 * DAY_US)
    (PDict [("apps", PList [(PDict [("displayName", PStr "Legacy CRM"); ("_owners", PList []);
              ("_signInActivity", PDict [("lastSignInActivity",
                 PDict [("lastSignInDateTime", PStr "2024-01-01T00:00:00Z")])]);
              ("passwordCredentials", PList [PDict [("endDateTime", PStr "2024-03-01T00:00:00Z")]])])])]) 90 = Ok rs /\
  (filter_by_band "all" rs = Some rs /\
  filter_by_band "clean" rs = Some rs /\
  (forall b t, In (b, t) [("low", 1); ("medium", 25); ("high", 50); ("critical", 75)] ->
     filter_by_band b rs = Some (filter (fun r => t <=? risk_score r) rs)) /\
  (forall b, ~ In b ("all" :: band_order) -> filter_by_band b rs = None)).
Proof.
  eexists. split; [reflexivity|].
  refine (filter_by_band_analyzed lower (fun _ => IsoOk 0) (200 * DAY_US)
    (PDict [("apps", PList [(PDict [("displayName", PStr "Legacy CRM"); ("_owners", PList []);
              ("_signInActivity", PDict [("lastSignInActivity",
                 PDict [("lastSignInDateTime", PStr "2024-01-01T00:00:00Z")])]);
              ("passwordCredentials", PList [PDict [("endDateTime", PStr "2024-03-01T00:00:00Z")]])])])]) 90 _ _).
  reflexivity.
Defined.

(** X15: [_top_recommendations] never raises and returns between one and
    three recommendations. *)
Theorem top_recommendations_count rs :
  exists recs, _top_recommendations rs = Some recs /\ (1 <= List.length recs <= 3)%nat.
Proof.
  unfold _top_recommendations. cbv zeta.
  rewrite !band_counts_known by (cbn; tauto).
  eexists. split; [reflexivity|]. rewrite length_firstn.
  match goal with |- context [match ?l with [] => _ | _ :: _ => _ end] => destruct l end;
    cbn [List.length]; lia.
Qed.

(** X16: [_top_recommendations] returns only the hygiene recommendation
    exactly when no app is critical or high, none has an expired secret or
    certificate, every ownerless app is first-party, and none is stale or
    never signed in. *)
Theorem top_recommendations_hygiene rs :
  _top_recommendations rs = Some [hygiene_rec] <->
  (forall r, In r rs ->
     risk_band r <> "critical" /\ risk_band r <> "high" /\
     has_expired_secret r = false /\ has_expired_cert r = false /\
     (owner_count r = 0 -> is_microsoft_first_party r = true) /\
     ~ In "stale" (map key (signals r)) /\ ~ In "never_signed_in" (map key (signals r))).
Proof.
  rewrite top_conditions. unfold _top_recommendations. cbv zeta.
  rewrite !band_counts_known by (cbn; tauto).
  rewrite crit_high_pos, !count_if_pos.
  repeat match goal with |- context [existsb ?p rs] => destruct (existsb p rs) end;
  cbn; split; intros H; try discriminate H; try (destruct H as (? & ? & ? & ?); discriminate);
  try reflexivity; try (repeat split).
Qed.

(** X17: the value [_csv_safe] returns never starts with one of the
    formula-triggering characters, and it is the value itself or the value
    behind one quote. *)
Theorem csv_safe_neutralises value :
  match _csv_safe value with
  | String c _ => csv_trigger c = false
  | EmptyString => True
  end /\
  (_csv_safe value = value \/ _csv_safe value = String "'" value).
Proof.
  destruct value as [|c rest]; [split; [exact I | left; reflexivity]|].
  unfold _csv_safe. destruct (csv_trigger c) eqn:E; split.
  - reflexivity.
  - right. reflexivity.
  - exact E.
  - left. reflexivity.
Qed.

(** X18: applying [_csv_safe] twice is the same as applying it once. *)
Theorem csv_safe_idempotent value : _csv_safe (_csv_safe value) = _csv_safe value.
Proof.
  destruct value as [|c rest]; [reflexivity|]. unfold _csv_safe at 2 3.
  destruct (csv_trigger c) eqn:E; [reflexivity|]. unfold _csv_safe. rewrite E. reflexivity.
Qed.

(** X19: [state_css] is [ca-state-enabled] exactly when the policy is
    enforced. *)
Theorem state_css_enabled p :
  CaState.state_css p = Ok "ca-state-enabled" <-> CaAnalyzer.is_enforced p = true.
Proof.
  unfold CaState.state_css, CaAnalyzer.is_enforced, CaState.str_dict_get.
  destruct (CaAnalyzer.state p) as [| | |s| |]; cbn; try (split; discriminate).
  destruct (String.eqb_spec s "enabled") as [->|Hne]; [split; reflexivity|].
  destruct (String.eqb_spec s "disabled") as [->|Hd]; [split; discriminate|].
  destruct (String.eqb_spec s "enabledForReportingButNotEnforced") as [->|Hr];
    split; discriminate.
Qed.

(** X20: [state_label] is [Enabled] exactly when the state is [enabled] or
    already the string [Enabled], which falls through the table unchanged;
    so the label does not tell an enforced policy from one in the state
    [Enabled]. *)
Theorem state_label_enabled p :
  CaState.state_label p = Ok (PStr "Enabled") <->
  CaAnalyzer.state p = PStr "enabled" \/ CaAnalyzer.state p = PStr "Enabled".
Proof.
  unfold CaState.state_label, CaState.str_dict_get.
  destruct (CaAnalyzer.state p) as [| | |s| |]; cbn;
    try (split; [discriminate | intros [H|H]; discriminate H]).
  destruct (String.eqb_spec s "enabled") as [->|Hne];
    [split; [intros _; left; reflexivity | reflexivity]|].
  destruct (String.eqb_spec s "disabled") as [->|Hd];
    [split; [discriminate | intros [H|H]; discriminate H]|].
  destruct (String.eqb_spec s "enabledForReportingButNotEnforced") as [->|Hr];
    [split; [discriminate | intros [H|H]; discriminate H]|].
  split.
  - intros H. injection H as ->. right. reflexivity.
  - intros [H|H]; injection H as ->; [contradiction | reflexivity].
Qed.

(** X21: [analyze_ca_coverage] returns one coverage record per app, in the
    order of the apps, with the app's id lower-cased by [str.lower()] (the
    case mapping [str_lower]) and its display name;
    its policy names are the display names of the enforced policies that
    cover it, in policy order. *)
Theorem ca_coverage_policy_names str_lower ca_policies apps covs sums :
  CaAnalyzer.analyze_ca_coverage str_lower ca_policies apps = Ok (covs, sums) ->
  exists app_list, py_iter apps = Ok app_list /\
  Forall2 (fun app c =>
             exists aid, py_get app "appId" (PStr "") = Ok aid /\
               py_lower str_lower aid = Ok (CaAnalyzer.app_id c) /\
               py_get app "displayName" (PStr "(unnamed)") = Ok (CaAnalyzer.coverage_display_name c) /\
               CaAnalyzer.policy_names c =
                 map CaAnalyzer.display_name
                   (filter (CaAnalyzer.covers_b (CaAnalyzer.app_id c))
                      (filter CaAnalyzer.is_enforced sums)))
    app_list covs.
Proof.
  unfold CaAnalyzer.analyze_ca_coverage. intros H. res_inv H. injection H as <- <-.
  eexists. split; [reflexivity|].
  eapply Forall2_impl; [|exact (map_res_Forall2 _ _ _ E1)].
  intros app c Happ. unfold CaAnalyzer.app_coverage in Happ. res_inv Happ. injection Happ as <-.
  cbn [CaAnalyzer.app_id CaAnalyzer.policy_names CaAnalyzer.coverage_display_name].
  exists x2. split; [first [assumption | reflexivity]|]. split; [first [assumption | reflexivity]|]. split; [first [assumption | reflexivity]|].
  apply covering_of_filter.
Qed.

Lemma ca_coverage_policy_names_witness :
  exists covs sums,
    CaAnalyzer.analyze_ca_coverage lower
      (PList [PDict [("displayName", PStr "Require MFA"); ("state", PStr "enabled");
                   ("conditions", PDict [("applications", PDict
                      [("includeApplications", PList [PStr "All"]);
                       ("excludeApplications", PList [PStr "APP-X"])])])]])
      (PList [PDict [("appId", PStr "app-x")]; PDict [("appId", PStr "App-Y")]])
    = Ok (covs, sums) /\
  (exists app_list, py_iter (PList [PDict [("appId", PStr "app-x")]; PDict [("appId", PStr "App-Y")]]) = Ok app_list /\
  Forall2 (fun app c =>
             exists aid, py_get app "appId" (PStr "") = Ok aid /\
               py_lower lower aid = Ok (CaAnalyzer.app_id c) /\
               py_get app "displayName" (PStr "(unnamed)") = Ok (CaAnalyzer.coverage_display_name c) /\
               CaAnalyzer.policy_names c =
                 map CaAnalyzer.display_name
                   (filter (CaAnalyzer.covers_b (CaAnalyzer.app_id c))
                      (filter CaAnalyzer.is_enforced sums)))
    app_list covs).
Proof.
  do 2 eexists. split; [reflexivity|].
  refine (ca_coverage_policy_names lower
      (PList [PDict [("displayName", PStr "Require MFA"); ("state", PStr "enabled");
                   ("conditions", PDict [("applications", PDict
                      [("includeApplications", PList [PStr "All"]);
                       ("excludeApplications", PList [PStr "APP-X"])])])]])
      (PList [PDict [("appId", PStr "app-x")]; PDict [("appId", PStr "App-Y")]]) _ _ _).
  reflexivity.
Defined.
